(** * Model-rocket flight simulators v1, v2 and v3

    A shallow embedding of the three simulation scripts
    [simulator_v1.py] (1-DOF, thrust and gravity),
    [simulator_v2.py] (1-DOF with quadratic drag) and
    [simulator_v3.py] (2-D rigid body with a restoring torque),
    and the properties of their flight profile, force model, integration
    step and main loop.

    Number model.  The scripts compute with binary64 floats.  Here every
    float is an ideal real number of [R]: rounding, overflow, infinities
    and NaN are not represented.  The one arithmetic event that the model
    keeps is a division whose divisor is zero, which has no real value:
    in Python it raises [ZeroDivisionError] when both operands are plain
    floats (v1, and the derivation of the mass-flow rate in all three
    scripts) and yields [inf]/[nan] when an operand is a numpy scalar
    (the accelerations of v2 and v3).  Both are the outcome
    [ZeroDivision] below. *)

From Stdlib Require Import Reals Lra Lia List Bool Sorted.
Import ListNotations.
Open Scope R_scope.

(** ** Outcomes, checked division, comparisons *)

(** What running a piece of the script gives: a value, a division by
    zero, or (for the loop only) an exhausted iteration budget. *)
Inductive outcome (A : Type) : Type :=
| Done (a : A)
| ZeroDivision
| OutOfFuel.

Arguments Done {A} a.
Arguments ZeroDivision {A}.
Arguments OutOfFuel {A}.

Definition bind {A B : Type} (c : outcome A) (k : A -> outcome B) : outcome B :=
  match c with
  | Done a => k a
  | ZeroDivision => ZeroDivision
  | OutOfFuel => OutOfFuel
  end.

Notation "x <- c ;; k" := (bind c (fun x => k))
  (at level 61, c at next level, right associativity).
Notation "' pat <- c ;; k" := (bind c (fun x => match x with pat => k end))
  (at level 61, pat pattern, c at next level, right associativity).

(** Python's [a / b] on floats. *)
Definition divide (a b : R) : outcome R :=
  if Req_dec_T b 0 then ZeroDivision else Done (a / b).

Notation "a // b" := (divide a b) (at level 40, left associativity).

(** Python's [a < b], [a > b], [a >= b] and [a == b] on floats. *)
Definition Rltb (a b : R) : bool := if Rlt_dec a b then true else false.
Definition Rgtb (a b : R) : bool := Rltb b a.
Definition Rgeb (a b : R) : bool := if Rle_dec b a then true else false.
Definition Reqb (a b : R) : bool := if Req_dec_T a b then true else false.

(** [np.sign]. *)
Definition sign (a : R) : R :=
  if Rltb a 0 then -1 else if Rltb 0 a then 1 else 0.

(** [np.radians] and [np.degrees]. *)
Definition radians (a : R) : R := a * (PI / 180).
Definition degrees (a : R) : R := a * (180 / PI).

(** [np.arctan2 x1 x2]: the angle of the point with abscissa [x2] and
    ordinate [x1], in (-PI, PI], chosen by the signs of both arguments. *)
Definition arctan2 (x1 x2 : R) : R :=
  if Rltb 0 x2 then atan (x1 / x2)
  else if Rltb x2 0 then
    (if Rgeb x1 0 then atan (x1 / x2) + PI else atan (x1 / x2) - PI)
  else if Rltb 0 x1 then PI / 2
  else if Rltb x1 0 then - (PI / 2)
  else 0.

(** ** The [while] loop

    [while cond: body], run for at most [fuel] iterations.  The scripts
    have no iteration bound of their own: [OutOfFuel] says that the
    condition still held after [fuel] iterations. *)
Section Loop.
Context {S : Type}.
Variable cond : S -> bool.
Variable body : S -> outcome S.

Fixpoint while_loop (fuel : nat) (s : S) : outcome S :=
  if cond s then
    match fuel with
    | O => OutOfFuel
    | Datatypes.S n => s' <- body s ;; while_loop n s'
    end
  else Done s.

(** The state after [n] iterations of the body, the loop condition
    not consulted. *)
Fixpoint iterate (n : nat) (s : S) : outcome S :=
  match n with
  | O => Done s
  | Datatypes.S k => s' <- body s ;; iterate k s'
  end.
End Loop.

(** ** Parameters shared by the three scripts *)

(** The module-level constants of section 1 of each script. *)
Record rocket : Type := mkRocket {
  g : R;
  initial_mass : R;
  propellant_mass : R;
  burn_time : R;
  thrust : R;
  dt : R
}.

(** [burnout_mass = initial_mass - propellant_mass]. *)
Definition burnout_mass (p : rocket) : R := initial_mass p - propellant_mass p.

(** The thrust and mass branch at the head of every loop body
    (v1 lines 65-71, v2 lines 61-66, v3 lines 80-85): the pair
    [(current_thrust, m)] at time [t]. *)
Definition flight_profile (p : rocket) (mass_flow_rate t : R) : R * R :=
  if Rltb t (burn_time p)
  then (thrust p, initial_mass p - mass_flow_rate * t)
  else (0, burnout_mass p).

(** ** simulator_v1.py *)
Module V1.

Record state : Type := mkState {
  t : R;
  h : R;
  v : R;
  m : R;
  time_list : list R;
  height_list : list R;
  velocity_list : list R;
  acceleration_list : list R
}.

(** Section 2 of the script, after the derived parameters. *)
Definition init (p : rocket) : state :=
  mkState 0 0 0 (initial_mass p) [] [] [] [].

(** [while h >= 0 or t == 0]. *)
Definition cond (s : state) : bool := Rgeb (h s) 0 || Reqb (t s) 0.

(** One iteration of the main loop, lines 59-88. *)
Definition body (p : rocket) (mass_flow_rate : R) (s : state) : outcome state :=
  let time_list' := time_list s ++ [t s] in
  let height_list' := height_list s ++ [h s] in
  let velocity_list' := velocity_list s ++ [v s] in
  let '(current_thrust, m') := flight_profile p mass_flow_rate (t s) in
  let F_net := current_thrust - m' * g p in
  a <- F_net // m' ;;
  let acceleration_list' := acceleration_list s ++ [a] in
  let v' := v s + a * dt p in
  let h' := h s + v' * dt p in
  let t' := t s + dt p in
  Done (mkState t' h' v' m' time_list' height_list' velocity_list'
          acceleration_list').

(** The script up to the end of the loop, with an iteration budget. *)
Definition simulate (p : rocket) (fuel : nat) : outcome state :=
  mass_flow_rate <- propellant_mass p // burn_time p ;;
  while_loop cond (body p mass_flow_rate) fuel (init p).

End V1.

(** ** Aerodynamic parameters of v2 and v3 *)

Record aero : Type := mkAero {
  rho : R;
  rocket_diameter : R;
  C_d : R
}.

(** [A = np.pi * (rocket_diameter / 2)**2]. *)
Definition A (q : aero) : R := PI * (rocket_diameter q / 2) ^ 2.

(** ** simulator_v2.py *)
Module V2.

Record state : Type := mkState {
  t : R;
  h : R;
  v : R;
  m : R;
  time_list : list R;
  height_list : list R;
  velocity_list : list R;
  acceleration_list : list R
}.

Definition init (p : rocket) : state :=
  mkState 0 0 0 (initial_mass p) [] [] [] [].

(** [while h >= 0 or t == 0]. *)
Definition cond (s : state) : bool := Rgeb (h s) 0 || Reqb (t s) 0.

(** Line 72: the drag magnitude at velocity [v]. *)
Definition F_drag (q : aero) (v : R) : R :=
  0.5 * rho q * (v ^ 2) * C_d q * A q.

(** The signed drag term that line 76 subtracts; the force that drag
    contributes to [F_net] is its opposite. *)
Definition drag_term (q : aero) (v : R) : R := F_drag q v * sign v.

(** One iteration of the main loop, lines 57-87. *)
Definition body (p : rocket) (q : aero) (mass_flow_rate : R) (s : state)
  : outcome state :=
  let time_list' := time_list s ++ [t s] in
  let height_list' := height_list s ++ [h s] in
  let velocity_list' := velocity_list s ++ [v s] in
  let '(current_thrust, m') := flight_profile p mass_flow_rate (t s) in
  let F_net := current_thrust - m' * g p - drag_term q (v s) in
  a <- F_net // m' ;;
  let acceleration_list' := acceleration_list s ++ [a] in
  let v' := v s + a * dt p in
  let h' := h s + v' * dt p in
  let t' := t s + dt p in
  Done (mkState t' h' v' m' time_list' height_list' velocity_list'
          acceleration_list').

Definition simulate (p : rocket) (q : aero) (fuel : nat) : outcome state :=
  mass_flow_rate <- propellant_mass p // burn_time p ;;
  while_loop cond (body p q mass_flow_rate) fuel (init p).

End V2.

(** ** simulator_v3.py *)

(** The rigid-body constants of v3. *)
Record rigid : Type := mkRigid {
  moment_of_inertia_I : R;
  cg_to_cp_distance : R;
  initial_angle_deg : R
}.

Module V3.

Record state : Type := mkState {
  x : R;
  y : R;
  vx : R;
  vy : R;
  theta : R;
  omega : R;
  m : R;
  t : R;
  time_l : list R;
  x_l : list R;
  y_l : list R;
  vx_l : list R;
  vy_l : list R;
  theta_l : list R;
  omega_l : list R
}.

Definition init (p : rocket) (r : rigid) : state :=
  mkState 0 0 0 0 (radians (initial_angle_deg r)) 0 (initial_mass p) 0
    [] [] [] [] [] [] [].

(** [while y >= 0 or t == 0]. *)
Definition cond (s : state) : bool := Rgeb (y s) 0 || Reqb (t s) 0.

(** Line 98. *)
Definition v_mag (vx vy : R) : R := sqrt (vx ^ 2 + vy ^ 2).

(** Line 99. *)
Definition F_drag (q : aero) (vx vy : R) : R :=
  0.5 * rho q * (v_mag vx vy) ^ 2 * C_d q * A q.

(** Lines 101-104: the pair [(drag_Fx, drag_Fy)]. *)
Definition drag_force (q : aero) (vx vy : R) : outcome (R * R) :=
  if Rgtb (v_mag vx vy) 1e-6 then
    ux <- vx // v_mag vx vy ;;
    uy <- vy // v_mag vx vy ;;
    Done ((- F_drag q vx vy) * ux, (- F_drag q vx vy) * uy)
  else Done (0, 0).

(** Lines 111-112: the angle of attack. *)
Definition velocity_angle (vx vy : R) : R := arctan2 vx vy.
Definition alpha (theta vx vy : R) : R := theta - velocity_angle vx vy.

(** Line 115. *)
Definition torque (q : aero) (r : rigid) (theta vx vy : R) : R :=
  (- F_drag q vx vy) * cg_to_cp_distance r * sin (alpha theta vx vy).

(** One iteration of the main loop, lines 74-131. *)
Definition body (p : rocket) (q : aero) (r : rigid) (mass_flow_rate : R)
  (s : state) : outcome state :=
  let time_l' := time_l s ++ [t s] in
  let x_l' := x_l s ++ [x s] in
  let y_l' := y_l s ++ [y s] in
  let vx_l' := vx_l s ++ [vx s] in
  let vy_l' := vy_l s ++ [vy s] in
  let theta_l' := theta_l s ++ [degrees (theta s)] in
  let omega_l' := omega_l s ++ [degrees (omega s)] in
  let '(current_thrust, m') := flight_profile p mass_flow_rate (t s) in
  let Tx := current_thrust * sin (theta s) in
  let Ty := current_thrust * cos (theta s) in
  let Fg_y := (- m') * g p in
  '(drag_Fx, drag_Fy) <- drag_force q (vx s) (vy s) ;;
  let F_net_x := Tx + drag_Fx in
  let F_net_y := Ty + Fg_y + drag_Fy in
  let torque := torque q r (theta s) (vx s) (vy s) in
  ax <- F_net_x // m' ;;
  ay <- F_net_y // m' ;;
  alpha_ang <- torque // moment_of_inertia_I r ;;
  let vx' := vx s + ax * dt p in
  let vy' := vy s + ay * dt p in
  let x' := x s + vx' * dt p in
  let y' := y s + vy' * dt p in
  let omega' := omega s + alpha_ang * dt p in
  let theta' := theta s + omega' * dt p in
  let t' := t s + dt p in
  Done (mkState x' y' vx' vy' theta' omega' m' t'
          time_l' x_l' y_l' vx_l' vy_l' theta_l' omega_l').

Definition simulate (p : rocket) (q : aero) (r : rigid) (fuel : nat)
  : outcome state :=
  mass_flow_rate <- propellant_mass p // burn_time p ;;
  while_loop cond (body p q r mass_flow_rate) fuel (init p r).

End V3.

(** ** Predicates and relations used in the statements *)

(** The data-model constraints on the engine parameters. *)
Definition valid_engine (p : rocket) : Prop :=
  0 < propellant_mass p /\ propellant_mass p < initial_mass p /\ 0 < burn_time p.

Definition nonneg (a : R) : Prop := 0 <= a.

(** What holds of the state at every test of the loop condition: the
    clock is the number of recorded samples times [dt], the altitude is
    not negative whenever the clock reads zero, the recorded altitudes are
    all non-negative, and the lists grow together. *)
Definition V1_recorded (p : rocket) (s : V1.state) : Prop :=
  V1.t s = INR (length (V1.time_list s)) * dt p /\
  (V1.t s = 0 -> 0 <= V1.h s) /\
  Forall nonneg (V1.height_list s) /\
  length (V1.height_list s) = length (V1.time_list s).

Definition V2_recorded (p : rocket) (s : V2.state) : Prop :=
  V2.t s = INR (length (V2.time_list s)) * dt p /\
  (V2.t s = 0 -> 0 <= V2.h s) /\
  Forall nonneg (V2.height_list s) /\
  length (V2.height_list s) = length (V2.time_list s).

Definition V3_recorded (p : rocket) (s : V3.state) : Prop :=
  V3.t s = INR (length (V3.time_l s)) * dt p /\
  (V3.t s = 0 -> 0 <= V3.y s) /\
  Forall nonneg (V3.y_l s) /\
  length (V3.y_l s) = length (V3.time_l s).

(** Two runs end alike: both with a value, the values related, or both
    with the same fault. *)
Inductive same_outcome {A B : Type} (Rel : A -> B -> Prop)
  : outcome A -> outcome B -> Prop :=
| same_Done (a : A) (b : B) : Rel a b -> same_outcome Rel (Done a) (Done b)
| same_ZeroDivision : same_outcome Rel ZeroDivision ZeroDivision
| same_OutOfFuel : same_outcome Rel OutOfFuel OutOfFuel.

(** A v3 state that is a v1 state on the vertical axis and zero
    everywhere else, its recorded lists included. *)
Definition reduces (s1 : V1.state) (s3 : V3.state) : Prop :=
  V3.t s3 = V1.t s1 /\
  V3.y s3 = V1.h s1 /\
  V3.vy s3 = V1.v s1 /\
  V3.m s3 = V1.m s1 /\
  V3.x s3 = 0 /\ V3.vx s3 = 0 /\ V3.theta s3 = 0 /\ V3.omega s3 = 0 /\
  V3.time_l s3 = V1.time_list s1 /\
  V3.y_l s3 = V1.height_list s1 /\
  V3.vy_l s3 = V1.velocity_list s1 /\
  V3.x_l s3 = repeat 0 (length (V1.time_list s1)) /\
  V3.vx_l s3 = repeat 0 (length (V1.time_list s1)) /\
  V3.theta_l s3 = repeat 0 (length (V1.time_list s1)) /\
  V3.omega_l s3 = repeat 0 (length (V1.time_list s1)).

(** ** Sample configurations

    Round numbers, so that every value of the sample runs is exact in
    binary64 as well as in [R]. *)

(** A short hop: [g = 10], 2 kg at launch of which 1 kg is propellant,
    a 1 s burn at 40 N, [dt = 1]. *)
Definition short_hop : rocket := mkRocket 10 2 1 1 40 1.

(** The state of [short_hop] after its first iteration. *)
Definition short_hop_first : V1.state :=
  V1.mkState 1 10 10 2 [0] [0] [0] [10].

(** The state [short_hop] leaves the loop with, and its recorded lists. *)
Definition short_hop_final : V1.state :=
  V1.mkState 4 (-20) (-20) 1
    [0; 1; 2; 3] [0; 10; 10; 0] [0; 10; 0; -10] [10; -10; -10; -10].



(** A rocket that carries more propellant (3 kg) than its launch mass
    (2 kg). *)
Definition overloaded : rocket := mkRocket 10 2 3 1 40 1.

(** The state [overloaded] leaves the loop with: the flight of
    [short_hop], on a mass of -1 kg after burnout. *)
Definition overloaded_final : V1.state :=
  V1.mkState 4 (-20) (-20) (-1)
    [0; 1; 2; 3] [0; 10; 10; 0] [0; 10; 0; -10] [10; -10; -10; -10].

(** Aerodynamic and rigid-body parameters for the sample runs: unit
    density and diameter without and with drag, and an upright launch. *)
Definition no_drag : aero := mkAero 1 1 0.
Definition unit_drag : aero := mkAero 1 1 1.
Definition upright : rigid := mkRigid 1 1 0.

(** ** Post-processing of the recorded lists

    Section 4 of each script: v1 lines 95-108, v2 lines 93-96, v3 line
    134.  [None] stands for the [ValueError] or [IndexError] that numpy or
    Python raises on an empty array, on lists of different lengths or on
    an index out of range. *)

Definition obind {A B : Type} (c : option A) (k : A -> option B) : option B :=
  match c with
  | Some a => k a
  | None => None
  end.

Notation "x <-? c ;; k" := (obind c (fun x => k))
  (at level 61, c at next level, right associativity).

(** [np.max]. *)
Fixpoint max_from (best : R) (l : list R) : R :=
  match l with
  | [] => best
  | a :: l' => max_from (if Rltb best a then a else best) l'
  end.

Definition np_max (l : list R) : option R :=
  match l with
  | [] => None
  | a :: l' => Some (max_from a l')
  end.

(** [np.argmax]: the index of the first occurrence of the maximum. *)
Fixpoint argmax_from (best_i : nat) (best : R) (i : nat) (l : list R) : nat :=
  match l with
  | [] => best_i
  | a :: l' =>
      if Rltb best a then argmax_from i a (Datatypes.S i) l'
      else argmax_from best_i best (Datatypes.S i) l'
  end.

Definition argmax (l : list R) : option nat :=
  match l with
  | [] => None
  | a :: l' => Some (argmax_from 0 a 1 l')
  end.

(** [np.interp x xp fp] for sample points [xp] in increasing order, as
    the recorded times are: [fp]'s first value left of the first point,
    its last value from the last point on, the value of a sample at its
    point, and on the segment from [(x0, f0)] to [(x1, f1)] that holds [x]
    the value [slope * (x - x0) + f0] with
    [slope = (f1 - f0) / (x1 - x0)]. *)
Fixpoint interp_from (x x0 f0 : R) (xp fp : list R) : R :=
  match xp, fp with
  | x1 :: xp', f1 :: fp' =>
      if Rltb x x1 then
        if Reqb x0 x then f0 else (f1 - f0) / (x1 - x0) * (x - x0) + f0
      else interp_from x x1 f1 xp' fp'
  | _, _ => f0
  end.

Definition interp (x : R) (xp fp : list R) : option R :=
  match xp, fp with
  | x0 :: xp', f0 :: fp' =>
      if Nat.eqb (length xp') (length fp') then
        Some (if Rltb x x0 then f0 else interp_from x x0 f0 xp' fp')
      else None
  | _, _ => None
  end.

(** The summary values of v1, lines 99-108. *)
Record V1_report : Type := mkV1_report {
  apogee_index : nat;
  apogee_height : R;
  apogee_time : R;
  max_velocity : R;
  burnout_height : R;
  burnout_velocity : R
}.

Definition V1_analyse (p : rocket) (s : V1.state) : option V1_report :=
  apogee_index <-? argmax (V1.height_list s) ;;
  apogee_height <-? nth_error (V1.height_list s) apogee_index ;;
  apogee_time <-? nth_error (V1.time_list s) apogee_index ;;
  max_velocity <-? np_max (V1.velocity_list s) ;;
  burnout_height <-?
    interp (burn_time p) (V1.time_list s) (V1.height_list s) ;;
  burnout_velocity <-?
    interp (burn_time p) (V1.time_list s) (V1.velocity_list s) ;;
  Some (mkV1_report apogee_index apogee_height apogee_time max_velocity
          burnout_height burnout_velocity).

(** The apogee of v2, lines 94-96: index, height and time. *)
Definition V2_analyse (s : V2.state) : option (nat * R * R) :=
  apogee_index <-? argmax (V2.height_list s) ;;
  apogee_height <-? nth_error (V2.height_list s) apogee_index ;;
  apogee_time <-? nth_error (V2.time_list s) apogee_index ;;
  Some (apogee_index, apogee_height, apogee_time).

(** The apogee of v3, line 134. *)
Definition V3_analyse (s : V3.state) : option R := np_max (V3.y_l s).

(** ** The shape of the recorded lists

    What holds of the lists at every test of the loop condition: they
    have one length, the recorded times are the multiples of [dt] in
    order, the clock is the next multiple, and the trajectory, the current
    state included, starts from the launch state. *)
Definition clock_ticks (d : R) (n : nat) : list R :=
  map (fun i => INR i * d) (seq 0 n).

Definition V1_trace (p : rocket) (s : V1.state) : Prop :=
  V1.time_list s = clock_ticks (dt p) (length (V1.time_list s)) /\
  V1.t s = INR (length (V1.time_list s)) * dt p /\
  length (V1.height_list s) = length (V1.time_list s) /\
  length (V1.velocity_list s) = length (V1.time_list s) /\
  length (V1.acceleration_list s) = length (V1.time_list s) /\
  hd 0 (V1.height_list s ++ [V1.h s]) = 0 /\
  hd 0 (V1.velocity_list s ++ [V1.v s]) = 0.

Definition V3_trace (p : rocket) (r : rigid) (s : V3.state) : Prop :=
  V3.time_l s = clock_ticks (dt p) (length (V3.time_l s)) /\
  V3.t s = INR (length (V3.time_l s)) * dt p /\
  length (V3.x_l s) = length (V3.time_l s) /\
  length (V3.y_l s) = length (V3.time_l s) /\
  length (V3.vx_l s) = length (V3.time_l s) /\
  length (V3.vy_l s) = length (V3.time_l s) /\
  length (V3.theta_l s) = length (V3.time_l s) /\
  length (V3.omega_l s) = length (V3.time_l s) /\
  hd 0 (V3.x_l s ++ [V3.x s]) = 0 /\
  hd 0 (V3.y_l s ++ [V3.y s]) = 0 /\
  hd 0 (V3.vx_l s ++ [V3.vx s]) = 0 /\
  hd 0 (V3.vy_l s ++ [V3.vy s]) = 0 /\
  hd 0 (V3.theta_l s ++ [degrees (V3.theta s)]) = initial_angle_deg r /\
  hd 0 (V3.omega_l s ++ [degrees (V3.omega s)]) = 0.

Definition V2_trace (p : rocket) (s : V2.state) : Prop :=
  V2.time_list s = clock_ticks (dt p) (length (V2.time_list s)) /\
  V2.t s = INR (length (V2.time_list s)) * dt p /\
  length (V2.height_list s) = length (V2.time_list s) /\
  length (V2.velocity_list s) = length (V2.time_list s) /\
  length (V2.acceleration_list s) = length (V2.time_list s) /\
  hd 0 (V2.height_list s ++ [V2.h s]) = 0 /\
  hd 0 (V2.velocity_list s ++ [V2.v s]) = 0.

(** ** Relations between runs of different variants or parameters *)

(** A v2 state that is a v1 state, field by field. *)
Definition same_flight (s1 : V1.state) (s2 : V2.state) : Prop :=
  V2.t s2 = V1.t s1 /\ V2.h s2 = V1.h s1 /\ V2.v s2 = V1.v s1 /\
  V2.m s2 = V1.m s1 /\
  V2.time_list s2 = V1.time_list s1 /\
  V2.height_list s2 = V1.height_list s1 /\
  V2.velocity_list s2 = V1.velocity_list s1 /\
  V2.acceleration_list s2 = V1.acceleration_list s1.

(** Two v3 states that are mirror images of each other in the vertical
    axis: the horizontal and angular quantities are opposite, the
    vertical ones equal, in the states and in the recorded lists. *)
Definition mirrored (s s' : V3.state) : Prop :=
  V3.x s' = - V3.x s /\ V3.y s' = V3.y s /\
  V3.vx s' = - V3.vx s /\ V3.vy s' = V3.vy s /\
  V3.theta s' = - V3.theta s /\ V3.omega s' = - V3.omega s /\
  V3.m s' = V3.m s /\ V3.t s' = V3.t s /\
  V3.time_l s' = V3.time_l s /\
  V3.x_l s' = map Ropp (V3.x_l s) /\
  V3.y_l s' = V3.y_l s /\
  V3.vx_l s' = map Ropp (V3.vx_l s) /\
  V3.vy_l s' = V3.vy_l s /\
  V3.theta_l s' = map Ropp (V3.theta_l s) /\
  V3.omega_l s' = map Ropp (V3.omega_l s).

(** The launch of [r] tilted to the other side. *)
Definition tilt_opposite (r : rigid) : rigid :=
  mkRigid (moment_of_inertia_I r) (cg_to_cp_distance r)
    (- initial_angle_deg r).

(** ** Further sample configurations *)

(** [short_hop] with an engine that gives no thrust: the first step
    already ends below ground. *)
Definition dud : rocket := mkRocket 10 2 1 1 0 1.

(** The state [dud] leaves the loop with. *)
Definition dud_final : V1.state :=
  V1.mkState 1 (-10) (-10) 2 [0] [0] [0] [-10].

(** Unit diameter and drag coefficient in air of zero density. *)
Definition vacuum : aero := mkAero 0 1 1.

(** * Properties *)

(** ** Comparisons and checked division *)

Lemma Rltb_true (a b : R) : Rltb a b = true <-> a < b.
Proof. unfold Rltb; destruct (Rlt_dec a b); split; intros; try easy. Qed.

Lemma Rltb_false (a b : R) : Rltb a b = false <-> b <= a.
Proof.
  unfold Rltb; destruct (Rlt_dec a b); split; intros; try easy; lra.
Qed.

Lemma Rgeb_true (a b : R) : Rgeb a b = true <-> b <= a.
Proof. unfold Rgeb; destruct (Rle_dec b a); split; intros; try easy. Qed.

Lemma Rgeb_false (a b : R) : Rgeb a b = false <-> a < b.
Proof.
  unfold Rgeb; destruct (Rle_dec b a); split; intros; try easy; lra.
Qed.

Lemma Reqb_true (a b : R) : Reqb a b = true <-> a = b.
Proof. unfold Reqb; destruct (Req_dec_T a b); split; intros; try easy. Qed.

Lemma Reqb_false (a b : R) : Reqb a b = false <-> a <> b.
Proof. unfold Reqb; destruct (Req_dec_T a b); split; intros; try easy. Qed.

Lemma divide_Done (a b : R) : b <> 0 -> a // b = Done (a / b).
Proof. intros Hb; unfold divide; destruct (Req_dec_T b 0); easy. Qed.

Lemma divide_zero (a : R) : a // 0 = ZeroDivision.
Proof. unfold divide; destruct (Req_dec_T 0 0); easy. Qed.

(** Decide every comparison in sight, keeping the facts. *)
Ltac cmp :=
  repeat match goal with
  | |- context [Rltb ?a ?b] =>
      let E := fresh "E" in
      destruct (Rltb a b) eqn:E;
      [apply Rltb_true in E | apply Rltb_false in E]
  | |- context [Rgeb ?a ?b] =>
      let E := fresh "E" in
      destruct (Rgeb a b) eqn:E;
      [apply Rgeb_true in E | apply Rgeb_false in E]
  | |- context [Reqb ?a ?b] =>
      let E := fresh "E" in
      destruct (Reqb a b) eqn:E;
      [apply Reqb_true in E | apply Reqb_false in E]
  end.

(** ** The flight profile *)

Lemma profile_burning (p : rocket) (mfr t : R) :
  t < burn_time p ->
  flight_profile p mfr t = (thrust p, initial_mass p - mfr * t).
Proof. intros Ht; unfold flight_profile; cmp; [reflexivity | lra]. Qed.

Lemma profile_coasting (p : rocket) (mfr t : R) :
  burn_time p <= t ->
  flight_profile p mfr t = (0, burnout_mass p).
Proof. intros Ht; unfold flight_profile; cmp; [lra | reflexivity]. Qed.

(** Under the data-model constraints the mass-flow rate exists, is
    positive and consumes exactly the propellant over the burn. *)
Lemma valid_flow (p : rocket) :
  valid_engine p ->
  exists mfr, propellant_mass p // burn_time p = Done mfr /\
              0 < mfr /\ mfr * burn_time p = propellant_mass p.
Proof.
  intros (Hp & Hi & Hb).
  exists (propellant_mass p / burn_time p); repeat split.
  - apply divide_Done; lra.
  - apply Rdiv_lt_0_compat; assumption.
  - field; lra.
Qed.

(** The mass of the profile never drops below the burnout mass. *)
Lemma profile_mass_lower (p : rocket) (mfr t : R) :
  0 <= mfr -> mfr * burn_time p = propellant_mass p ->
  burnout_mass p <= snd (flight_profile p mfr t).
Proof.
  intros Hm Hflow; unfold flight_profile, burnout_mass; cmp; simpl.
  - assert (mfr * t <= mfr * burn_time p) by (apply Rmult_le_compat_l; lra).
    lra.
  - lra.
Qed.

(** C4.  For every time [t >= 0] the flight profile is defined; while
    [t < burn_time] it returns the constant thrust and the mass
    [initial_mass - mass_flow_rate * t], and from [burn_time] on it returns
    thrust 0 and the burnout mass [initial_mass - propellant_mass].  Being
    a total function into [R * R] it has no error outcome and no state. *)
Theorem flight_profile_spec (p : rocket) (mass_flow_rate t : R) :
  0 <= t ->
  exists current_thrust m : R,
    flight_profile p mass_flow_rate t = (current_thrust, m) /\
    (t < burn_time p ->
       current_thrust = thrust p /\
       m = initial_mass p - mass_flow_rate * t) /\
    (~ t < burn_time p ->
       current_thrust = 0 /\
       m = initial_mass p - propellant_mass p).
Proof.
  intros _.
  destruct (Rlt_dec t (burn_time p)) as [Hlt | Hge].
  - rewrite (profile_burning _ _ _ Hlt).
    do 2 eexists; split; [reflexivity | split; intros; [auto | contradiction]].
  - rewrite profile_coasting by lra.
    do 2 eexists; split; [reflexivity | split; intros; [contradiction | auto]].
Qed.

(** ** What one iteration of each loop body produces *)

Lemma V1_body_inv (p : rocket) (mfr : R) (s s' : V1.state) :
  V1.body p mfr s = Done s' ->
  exists current_thrust m' a,
    flight_profile p mfr (V1.t s) = (current_thrust, m') /\
    (current_thrust - m' * g p) // m' = Done a /\
    s' = V1.mkState (V1.t s + dt p)
           (V1.h s + (V1.v s + a * dt p) * dt p)
           (V1.v s + a * dt p) m'
           (V1.time_list s ++ [V1.t s])
           (V1.height_list s ++ [V1.h s])
           (V1.velocity_list s ++ [V1.v s])
           (V1.acceleration_list s ++ [a]).
Proof.
  unfold V1.body.
  destruct (flight_profile p mfr (V1.t s)) as [ct m'].
  destruct ((ct - m' * g p) // m') as [a| |] eqn:Ea; simpl; intros H;
    inversion H; subst.
  exists ct, m', a; auto.
Qed.

Lemma V2_body_inv (p : rocket) (q : aero) (mfr : R) (s s' : V2.state) :
  V2.body p q mfr s = Done s' ->
  exists current_thrust m' a,
    flight_profile p mfr (V2.t s) = (current_thrust, m') /\
    (current_thrust - m' * g p - V2.drag_term q (V2.v s)) // m' = Done a /\
    s' = V2.mkState (V2.t s + dt p)
           (V2.h s + (V2.v s + a * dt p) * dt p)
           (V2.v s + a * dt p) m'
           (V2.time_list s ++ [V2.t s])
           (V2.height_list s ++ [V2.h s])
           (V2.velocity_list s ++ [V2.v s])
           (V2.acceleration_list s ++ [a]).
Proof.
  unfold V2.body.
  destruct (flight_profile p mfr (V2.t s)) as [ct m'].
  destruct ((ct - m' * g p - V2.drag_term q (V2.v s)) // m') as [a| |] eqn:Ea;
    simpl; intros H; inversion H; subst.
  exists ct, m', a; auto.
Qed.

Lemma V3_body_inv (p : rocket) (q : aero) (r : rigid) (mfr : R)
  (s s' : V3.state) :
  V3.body p q r mfr s = Done s' ->
  exists current_thrust m' drag_Fx drag_Fy ax ay alpha_ang,
    flight_profile p mfr (V3.t s) = (current_thrust, m') /\
    V3.drag_force q (V3.vx s) (V3.vy s) = Done (drag_Fx, drag_Fy) /\
    (current_thrust * sin (V3.theta s) + drag_Fx) // m' = Done ax /\
    (current_thrust * cos (V3.theta s) + (- m') * g p + drag_Fy) // m'
      = Done ay /\
    V3.torque q r (V3.theta s) (V3.vx s) (V3.vy s) // moment_of_inertia_I r
      = Done alpha_ang /\
    s' = V3.mkState
           (V3.x s + (V3.vx s + ax * dt p) * dt p)
           (V3.y s + (V3.vy s + ay * dt p) * dt p)
           (V3.vx s + ax * dt p)
           (V3.vy s + ay * dt p)
           (V3.theta s + (V3.omega s + alpha_ang * dt p) * dt p)
           (V3.omega s + alpha_ang * dt p)
           m' (V3.t s + dt p)
           (V3.time_l s ++ [V3.t s])
           (V3.x_l s ++ [V3.x s])
           (V3.y_l s ++ [V3.y s])
           (V3.vx_l s ++ [V3.vx s])
           (V3.vy_l s ++ [V3.vy s])
           (V3.theta_l s ++ [degrees (V3.theta s)])
           (V3.omega_l s ++ [degrees (V3.omega s)]).
Proof.
  unfold V3.body.
  destruct (flight_profile p mfr (V3.t s)) as [ct m'].
  destruct (V3.drag_force q (V3.vx s) (V3.vy s)) as [[fx fy]| |] eqn:Ed;
    simpl; try discriminate.
  destruct ((ct * sin (V3.theta s) + fx) // m') as [ax| |] eqn:Ex;
    simpl; try discriminate.
  destruct ((ct * cos (V3.theta s) + - m' * g p + fy) // m') as [ay| |] eqn:Ey;
    simpl; try discriminate.
  destruct (V3.torque q r (V3.theta s) (V3.vx s) (V3.vy s)
              // moment_of_inertia_I r) as [aa| |] eqn:Et;
    simpl; try discriminate.
  intros H; inversion H; subst.
  exists ct, m', fx, fy, ax, ay, aa; repeat split; auto.
Qed.

(** ** Integration order *)


(** ** The loop *)

Section LoopFacts.
Context {S : Type}.
Variable cond : S -> bool.
Variable body : S -> outcome S.

Lemma while_loop_exit (fuel : nat) (s : S) :
  cond s = false -> while_loop cond body fuel s = Done s.
Proof. intros H; destruct fuel; simpl; rewrite H; reflexivity. Qed.

Lemma while_loop_step (fuel : nat) (s s' : S) :
  cond s = true -> body s = Done s' ->
  while_loop cond body (Datatypes.S fuel) s = while_loop cond body fuel s'.
Proof. intros Hc Hb; simpl; rewrite Hc, Hb; reflexivity. Qed.

(** A finished loop does not depend on the budget it was given. *)
Lemma while_loop_more_fuel (n k : nat) (s s' : S) :
  while_loop cond body n s = Done s' ->
  while_loop cond body (n + k) s = Done s'.
Proof.
  revert s; induction n as [| n IH]; intros s; simpl.
  - destruct (cond s) eqn:Hc; [discriminate |].
    intros H; rewrite while_loop_exit; assumption.
  - destruct (cond s) eqn:Hc; [| auto].
    destruct (body s) as [s1| |]; simpl; try discriminate.
    apply IH.
Qed.

Section Invariant.
Variable P : S -> Prop.
Hypothesis body_keeps :
  forall s s', P s -> cond s = true -> body s = Done s' -> P s'.

(** On exit the invariant holds and the condition is false. *)
Lemma while_loop_done (fuel : nat) (s s' : S) :
  P s -> while_loop cond body fuel s = Done s' ->
  P s' /\ cond s' = false.
Proof.
  revert s; induction fuel as [| n IH]; intros s Hs; simpl.
  - destruct (cond s) eqn:Hc; [discriminate |].
    intros H; inversion H; subst; auto.
  - destruct (cond s) eqn:Hc.
    + destruct (body s) as [s1| |] eqn:Hb; simpl; try discriminate.
      apply IH; eauto.
    + intros H; inversion H; subst; auto.
Qed.

(** A loop that was entered exits right after an iteration, whose
    starting state still satisfied the condition. *)
Lemma while_loop_last (fuel : nat) (s s' : S) :
  P s -> cond s = true -> while_loop cond body fuel s = Done s' ->
  exists s_prev, P s_prev /\ cond s_prev = true /\ body s_prev = Done s'.
Proof.
  revert s; induction fuel as [| n IH]; intros s Hs Hc; simpl; rewrite Hc.
  - discriminate.
  - destruct (body s) as [s1| |] eqn:Hb; simpl; try discriminate.
    intros H.
    destruct (cond s1) eqn:Hc1.
    + apply (IH s1); eauto.
    + rewrite while_loop_exit in H by assumption.
      inversion H; subst; eauto.
Qed.
End Invariant.

End LoopFacts.

(** ** What the loop records *)

Lemma clock_zero (n : nat) (d : R) : INR (Datatypes.S n) * d = 0 -> d = 0.
Proof.
  intros H.
  destruct (Rmult_integral _ _ H) as [H0 | H0]; [| assumption].
  pose proof (pos_INR n). rewrite S_INR in H0. lra.
Qed.

Lemma V1_cond_true (p : rocket) (s : V1.state) :
  V1_recorded p s -> V1.cond s = true -> 0 <= V1.h s.
Proof.
  intros (_ & Hz & _) Hc. unfold V1.cond in Hc.
  apply orb_true_iff in Hc as [Hc | Hc].
  - apply Rgeb_true in Hc; assumption.
  - apply Reqb_true in Hc; auto.
Qed.

Lemma V1_cond_false (s : V1.state) :
  V1.cond s = false -> V1.h s < 0 /\ V1.t s <> 0.
Proof.
  unfold V1.cond; intros Hc. apply orb_false_iff in Hc as [H1 H2].
  apply Rgeb_false in H1. apply Reqb_false in H2. auto.
Qed.

Lemma V1_recorded_init (p : rocket) : V1_recorded p (V1.init p).
Proof.
  unfold V1_recorded; simpl; repeat split; try lra; constructor.
Qed.

Lemma V1_recorded_body (p : rocket) (mfr : R) (s s' : V1.state) :
  V1_recorded p s -> V1.cond s = true -> V1.body p mfr s = Done s' ->
  V1_recorded p s'.
Proof.
  intros Hs Hc Hb.
  pose proof (V1_cond_true _ _ Hs Hc) as Hh.
  destruct Hs as (Ht & Hz & Hall & Hlen).
  destruct (V1_body_inv _ _ _ _ Hb) as (ct & m' & a & _ & _ & ->).
  unfold V1_recorded; simpl.
  assert (Hclock : V1.t s + dt p
                   = INR (length (V1.time_list s ++ [V1.t s])) * dt p).
  { rewrite length_app; simpl. rewrite Nat.add_1_r, S_INR. lra. }
  repeat split.
  - assumption.
  - rewrite Hclock, length_app; simpl. rewrite Nat.add_1_r.
    intros H0. apply clock_zero in H0. rewrite H0. lra.
  - apply Forall_app; split; [assumption | constructor; [exact Hh | constructor]].
  - rewrite !length_app; simpl; lia.
Qed.

(** A finished run of v1: the state the loop exits with comes out of one
    last iteration, started from a state that passed the loop test. *)
Lemma V1_run_done (p : rocket) (fuel : nat) (s' : V1.state) :
  V1.simulate p fuel = Done s' ->
  exists mfr s_prev,
    propellant_mass p // burn_time p = Done mfr /\
    V1_recorded p s_prev /\ V1.cond s_prev = true /\
    V1.body p mfr s_prev = Done s' /\
    V1_recorded p s' /\ V1.cond s' = false.
Proof.
  unfold V1.simulate.
  destruct (propellant_mass p // burn_time p) as [mfr| |] eqn:Em;
    simpl; try discriminate.
  intros H. exists mfr.
  assert (Hc0 : V1.cond (V1.init p) = true).
  { unfold V1.cond; simpl. apply orb_true_iff; right.
    apply Reqb_true; reflexivity. }
  destruct (while_loop_last V1.cond (V1.body p mfr) (V1_recorded p)
              (V1_recorded_body p mfr) fuel _ _ (V1_recorded_init p) Hc0 H)
    as (s_prev & Hp & Hcp & Hbp).
  destruct (while_loop_done V1.cond (V1.body p mfr) (V1_recorded p)
              (V1_recorded_body p mfr) fuel _ _ (V1_recorded_init p) H)
    as (Hs' & Hc').
  exists s_prev; auto 10.
Qed.

Lemma V2_cond_true (p : rocket) (s : V2.state) :
  V2_recorded p s -> V2.cond s = true -> 0 <= V2.h s.
Proof.
  intros (_ & Hz & _) Hc. unfold V2.cond in Hc.
  apply orb_true_iff in Hc as [Hc | Hc].
  - apply Rgeb_true in Hc; assumption.
  - apply Reqb_true in Hc; auto.
Qed.

Lemma V2_cond_false (s : V2.state) :
  V2.cond s = false -> V2.h s < 0 /\ V2.t s <> 0.
Proof.
  unfold V2.cond; intros Hc. apply orb_false_iff in Hc as [H1 H2].
  apply Rgeb_false in H1. apply Reqb_false in H2. auto.
Qed.

Lemma V2_recorded_init (p : rocket) : V2_recorded p (V2.init p).
Proof.
  unfold V2_recorded; simpl; repeat split; try lra; constructor.
Qed.

Lemma V2_recorded_body (p : rocket) (q : aero) (mfr : R) (s s' : V2.state) :
  V2_recorded p s -> V2.cond s = true -> V2.body p q mfr s = Done s' ->
  V2_recorded p s'.
Proof.
  intros Hs Hc Hb.
  pose proof (V2_cond_true _ _ Hs Hc) as Hh.
  destruct Hs as (Ht & Hz & Hall & Hlen).
  destruct (V2_body_inv _ _ _ _ _ Hb) as (ct & m' & a & _ & _ & ->).
  unfold V2_recorded; simpl.
  assert (Hclock : V2.t s + dt p
                   = INR (length (V2.time_list s ++ [V2.t s])) * dt p).
  { rewrite length_app; simpl. rewrite Nat.add_1_r, S_INR. lra. }
  repeat split.
  - assumption.
  - rewrite Hclock, length_app; simpl. rewrite Nat.add_1_r.
    intros H0. apply clock_zero in H0. rewrite H0. lra.
  - apply Forall_app; split; [assumption | constructor; [exact Hh | constructor]].
  - rewrite !length_app; simpl; lia.
Qed.

Lemma V2_run_done (p : rocket) (q : aero) (fuel : nat) (s' : V2.state) :
  V2.simulate p q fuel = Done s' ->
  exists mfr s_prev,
    propellant_mass p // burn_time p = Done mfr /\
    V2_recorded p s_prev /\ V2.cond s_prev = true /\
    V2.body p q mfr s_prev = Done s' /\
    V2_recorded p s' /\ V2.cond s' = false.
Proof.
  unfold V2.simulate.
  destruct (propellant_mass p // burn_time p) as [mfr| |] eqn:Em;
    simpl; try discriminate.
  intros H. exists mfr.
  assert (Hc0 : V2.cond (V2.init p) = true).
  { unfold V2.cond; simpl. apply orb_true_iff; right.
    apply Reqb_true; reflexivity. }
  destruct (while_loop_last V2.cond (V2.body p q mfr) (V2_recorded p)
              (V2_recorded_body p q mfr) fuel _ _ (V2_recorded_init p) Hc0 H)
    as (s_prev & Hp & Hcp & Hbp).
  destruct (while_loop_done V2.cond (V2.body p q mfr) (V2_recorded p)
              (V2_recorded_body p q mfr) fuel _ _ (V2_recorded_init p) H)
    as (Hs' & Hc').
  exists s_prev; auto 10.
Qed.

Lemma V3_cond_true (p : rocket) (s : V3.state) :
  V3_recorded p s -> V3.cond s = true -> 0 <= V3.y s.
Proof.
  intros (_ & Hz & _) Hc. unfold V3.cond in Hc.
  apply orb_true_iff in Hc as [Hc | Hc].
  - apply Rgeb_true in Hc; assumption.
  - apply Reqb_true in Hc; auto.
Qed.

Lemma V3_cond_false (s : V3.state) :
  V3.cond s = false -> V3.y s < 0 /\ V3.t s <> 0.
Proof.
  unfold V3.cond; intros Hc. apply orb_false_iff in Hc as [H1 H2].
  apply Rgeb_false in H1. apply Reqb_false in H2. auto.
Qed.

Lemma V3_recorded_init (p : rocket) (r : rigid) : V3_recorded p (V3.init p r).
Proof.
  unfold V3_recorded; simpl; repeat split; try lra; constructor.
Qed.

Lemma V3_recorded_body (p : rocket) (q : aero) (r : rigid) (mfr : R)
  (s s' : V3.state) :
  V3_recorded p s -> V3.cond s = true -> V3.body p q r mfr s = Done s' ->
  V3_recorded p s'.
Proof.
  intros Hs Hc Hb.
  pose proof (V3_cond_true _ _ Hs Hc) as Hh.
  destruct Hs as (Ht & Hz & Hall & Hlen).
  destruct (V3_body_inv _ _ _ _ _ _ Hb)
    as (ct & m' & fx & fy & ax & ay & aa & _ & _ & _ & _ & _ & ->).
  unfold V3_recorded; simpl.
  assert (Hclock : V3.t s + dt p
                   = INR (length (V3.time_l s ++ [V3.t s])) * dt p).
  { rewrite length_app; simpl. rewrite Nat.add_1_r, S_INR. lra. }
  repeat split.
  - assumption.
  - rewrite Hclock, length_app; simpl. rewrite Nat.add_1_r.
    intros H0. apply clock_zero in H0. rewrite H0. lra.
  - apply Forall_app; split; [assumption | constructor; [exact Hh | constructor]].
  - rewrite !length_app; simpl; lia.
Qed.

Lemma V3_run_done (p : rocket) (q : aero) (r : rigid) (fuel : nat)
  (s' : V3.state) :
  V3.simulate p q r fuel = Done s' ->
  exists mfr s_prev,
    propellant_mass p // burn_time p = Done mfr /\
    V3_recorded p s_prev /\ V3.cond s_prev = true /\
    V3.body p q r mfr s_prev = Done s' /\
    V3_recorded p s' /\ V3.cond s' = false.
Proof.
  unfold V3.simulate.
  destruct (propellant_mass p // burn_time p) as [mfr| |] eqn:Em;
    simpl; try discriminate.
  intros H. exists mfr.
  assert (Hc0 : V3.cond (V3.init p r) = true).
  { unfold V3.cond; simpl. apply orb_true_iff; right.
    apply Reqb_true; reflexivity. }
  destruct (while_loop_last V3.cond (V3.body p q r mfr) (V3_recorded p)
              (V3_recorded_body p q r mfr) fuel _ _ (V3_recorded_init p r) Hc0 H)
    as (s_prev & Hp & Hcp & Hbp).
  destruct (while_loop_done V3.cond (V3.body p q r mfr) (V3_recorded p)
              (V3_recorded_body p q r mfr) fuel _ _ (V3_recorded_init p r) H)
    as (Hs' & Hc').
  exists s_prev; auto 10.
Qed.

(** C1 (as amended).  In every finished run of v1, v2 and v3 the sample
    recorded last is the state the final iteration started from: its
    altitude is not negative, and no recorded altitude is.  The first
    state with a negative altitude is the one the loop exits with, one
    [dt] after the last recorded time, and it is not recorded. *)
Theorem final_sample_is_last_airborne :
  (forall p fuel s', V1.simulate p fuel = Done s' ->
     Forall nonneg (V1.height_list s') /\
     V1.h s' < 0 /\
     exists tl hl t_last h_last,
       V1.time_list s' = tl ++ [t_last] /\
       V1.height_list s' = hl ++ [h_last] /\
       length hl = length tl /\
       0 <= h_last /\
       V1.t s' = t_last + dt p /\
       V1.h s' = h_last + V1.v s' * dt p) /\
  (forall p q fuel s', V2.simulate p q fuel = Done s' ->
     Forall nonneg (V2.height_list s') /\
     V2.h s' < 0 /\
     exists tl hl t_last h_last,
       V2.time_list s' = tl ++ [t_last] /\
       V2.height_list s' = hl ++ [h_last] /\
       length hl = length tl /\
       0 <= h_last /\
       V2.t s' = t_last + dt p /\
       V2.h s' = h_last + V2.v s' * dt p) /\
  (forall p q r fuel s', V3.simulate p q r fuel = Done s' ->
     Forall nonneg (V3.y_l s') /\
     V3.y s' < 0 /\
     exists tl yl t_last y_last,
       V3.time_l s' = tl ++ [t_last] /\
       V3.y_l s' = yl ++ [y_last] /\
       length yl = length tl /\
       0 <= y_last /\
       V3.t s' = t_last + dt p /\
       V3.y s' = y_last + V3.vy s' * dt p).
Proof.
  repeat split.
  - destruct (V1_run_done _ _ _ H) as (_ & _ & _ & _ & _ & _ & (_ & _ & Hall & _) & _).
    exact Hall.
  - destruct (V1_run_done _ _ _ H) as (_ & _ & _ & _ & _ & _ & _ & Hc).
    apply V1_cond_false in Hc; tauto.
  - destruct (V1_run_done _ _ _ H) as (mfr & sp & _ & Hp & Hcp & Hb & _ & _).
    pose proof (V1_cond_true _ _ Hp Hcp) as Hh.
    destruct Hp as (_ & _ & _ & Hlen).
    destruct (V1_body_inv _ _ _ _ Hb) as (ct & m' & a & _ & _ & ->).
    exists (V1.time_list sp), (V1.height_list sp), (V1.t sp), (V1.h sp).
    simpl; auto 10.
  - destruct (V2_run_done _ _ _ _ H) as (_ & _ & _ & _ & _ & _ & (_ & _ & Hall & _) & _).
    exact Hall.
  - destruct (V2_run_done _ _ _ _ H) as (_ & _ & _ & _ & _ & _ & _ & Hc).
    apply V2_cond_false in Hc; tauto.
  - destruct (V2_run_done _ _ _ _ H) as (mfr & sp & _ & Hp & Hcp & Hb & _ & _).
    pose proof (V2_cond_true _ _ Hp Hcp) as Hh.
    destruct Hp as (_ & _ & _ & Hlen).
    destruct (V2_body_inv _ _ _ _ _ Hb) as (ct & m' & a & _ & _ & ->).
    exists (V2.time_list sp), (V2.height_list sp), (V2.t sp), (V2.h sp).
    simpl; auto 10.
  - destruct (V3_run_done _ _ _ _ _ H) as (_ & _ & _ & _ & _ & _ & (_ & _ & Hall & _) & _).
    exact Hall.
  - destruct (V3_run_done _ _ _ _ _ H) as (_ & _ & _ & _ & _ & _ & _ & Hc).
    apply V3_cond_false in Hc; tauto.
  - destruct (V3_run_done _ _ _ _ _ H) as (mfr & sp & _ & Hp & Hcp & Hb & _ & _).
    pose proof (V3_cond_true _ _ Hp Hcp) as Hh.
    destruct Hp as (_ & _ & _ & Hlen).
    destruct (V3_body_inv _ _ _ _ _ _ Hb)
      as (ct & m' & fx & fy & ax & ay & aa & _ & _ & _ & _ & _ & ->).
    exists (V3.time_l sp), (V3.y_l sp), (V3.t sp), (V3.y sp).
    simpl; auto 10.
Qed.

(** ** Running v1 on concrete parameters *)

Lemma V1_body_eval (p : rocket) (mfr : R) (s : V1.state)
  (ct m' a t' h' v' : R) :
  flight_profile p mfr (V1.t s) = (ct, m') ->
  m' <> 0 ->
  a = (ct - m' * g p) / m' ->
  v' = V1.v s + a * dt p ->
  h' = V1.h s + v' * dt p ->
  t' = V1.t s + dt p ->
  V1.body p mfr s =
  Done (V1.mkState t' h' v' m'
          (V1.time_list s ++ [V1.t s])
          (V1.height_list s ++ [V1.h s])
          (V1.velocity_list s ++ [V1.v s])
          (V1.acceleration_list s ++ [a])).
Proof.
  intros Hp Hm -> -> -> ->.
  unfold V1.body. rewrite Hp, divide_Done by assumption. reflexivity.
Qed.

(** Side conditions of a concrete iteration. *)
Ltac profile_at :=
  unfold flight_profile, burnout_mass; simpl; cmp; solve [f_equal; lra | lra].
Ltac cond_at :=
  simpl; cmp; simpl; solve [reflexivity | lra].

(** One iteration of v1 from the state in the goal to the given one. *)
Ltac v1_iter ct m' a t' h' v' :=
  erewrite while_loop_step;
  [ | unfold V1.cond; cond_at
    | apply (V1_body_eval _ _ _ ct m' a t' h' v');
      [profile_at | lra | simpl; lra | simpl; lra | simpl; lra | simpl; lra] ];
  simpl app.

Lemma short_hop_run : V1.simulate short_hop 4 = Done short_hop_final.
Proof.
  unfold V1.simulate, short_hop_final.
  rewrite divide_Done by (simpl; lra).
  unfold bind, V1.init.
  v1_iter 40 2 10 1 10 10.
  v1_iter 0 1 (-10) 2 10 0.
  v1_iter 0 1 (-10) 3 0 (-10).
  v1_iter 0 1 (-10) 4 (-20) (-20).
  apply while_loop_exit. unfold V1.cond; cond_at.
Qed.

(** ** Reduction of v3 to v1 *)

Section Lockstep.
Context {S1 S2 : Type}.
Variables (cond1 : S1 -> bool) (body1 : S1 -> outcome S1).
Variables (cond2 : S2 -> bool) (body2 : S2 -> outcome S2).
Variable Rel : S1 -> S2 -> Prop.
Hypothesis cond_agree : forall a b, Rel a b -> cond1 a = cond2 b.
Hypothesis body_agree :
  forall a b, Rel a b -> same_outcome Rel (body1 a) (body2 b).

Lemma while_loop_lockstep (fuel : nat) (a : S1) (b : S2) :
  Rel a b ->
  same_outcome Rel (while_loop cond1 body1 fuel a)
                   (while_loop cond2 body2 fuel b).
Proof.
  revert a b; induction fuel as [| n IH]; intros a b Hab; simpl;
    rewrite <- (cond_agree _ _ Hab); destruct (cond1 a);
    try (constructor; assumption).
  destruct (body_agree _ _ Hab); simpl; try constructor.
  apply IH; assumption.
Qed.

Lemma iterate_lockstep (n : nat) (a : S1) (b : S2) :
  Rel a b ->
  same_outcome Rel (iterate body1 n a) (iterate body2 n b).
Proof.
  revert a b; induction n as [| n IH]; intros a b Hab; simpl.
  - constructor; assumption.
  - destruct (body_agree _ _ Hab); simpl; try constructor.
    apply IH; assumption.
Qed.
End Lockstep.

Lemma v_mag_sq (vx vy : R) : (V3.v_mag vx vy) ^ 2 = vx ^ 2 + vy ^ 2.
Proof.
  unfold V3.v_mag. apply pow2_sqrt. nra.
Qed.

(** The drag computation never divides by zero. *)
Lemma drag_force_Done (q : aero) (vx vy : R) :
  V3.drag_force q vx vy =
  if Rgtb (V3.v_mag vx vy) 1e-6
  then Done ((- V3.F_drag q vx vy) * (vx / V3.v_mag vx vy),
             (- V3.F_drag q vx vy) * (vy / V3.v_mag vx vy))
  else Done (0, 0).
Proof.
  unfold V3.drag_force, Rgtb. cmp; [| reflexivity].
  rewrite !divide_Done by lra. reflexivity.
Qed.

Lemma drag_force_no_drag (q : aero) (vx vy : R) :
  C_d q = 0 -> V3.drag_force q vx vy = Done (0, 0).
Proof.
  intros Hc. rewrite drag_force_Done.
  destruct (Rgtb _ _); [| reflexivity].
  assert (HF : V3.F_drag q vx vy = 0) by (unfold V3.F_drag; rewrite Hc; ring).
  rewrite HF. do 2 f_equal; ring.
Qed.

Lemma torque_no_drag (q : aero) (r : rigid) (theta vx vy : R) :
  C_d q = 0 -> V3.torque q r theta vx vy = 0.
Proof.
  intros Hc. unfold V3.torque, V3.F_drag. rewrite Hc. ring.
Qed.

Lemma repeat_snoc (a : R) (n : nat) : repeat a n ++ [a] = repeat a (n + 1).
Proof. rewrite repeat_app. reflexivity. Qed.

Lemma degrees_0 : degrees 0 = 0.
Proof. unfold degrees. ring. Qed.

Lemma reduces_body (p : rocket) (q : aero) (r : rigid) (mfr : R)
  (s1 : V1.state) (s3 : V3.state) :
  C_d q = 0 -> moment_of_inertia_I r <> 0 ->
  reduces s1 s3 ->
  same_outcome reduces (V1.body p mfr s1) (V3.body p q r mfr s3).
Proof.
  intros Hc HI
    (Ht & Hy & Hvy & Hm & Hx & Hvx & Hth & Hom &
     Htl & Hyl & Hvyl & Hxl & Hvxl & Hthl & Homl).
  unfold V1.body, V3.body.
  rewrite Ht, drag_force_no_drag, torque_no_drag by assumption.
  destruct (flight_profile p mfr (V1.t s1)) as [ct m'].
  rewrite Hth, sin_0, cos_0. unfold bind at 2.
  destruct (Req_dec_T m' 0) as [Hm0 | Hm0].
  - subst m'. rewrite !divide_zero. simpl. constructor.
  - rewrite !divide_Done by assumption. simpl.
    constructor. unfold reduces; simpl.
    rewrite Hy, Hvy, Hx, Hvx, Hom, Htl, Hyl, Hvyl, Hxl, Hvxl, Hthl, Homl.
    rewrite degrees_0, !repeat_snoc, length_app; simpl.
    repeat split; try reflexivity; try (field; assumption).
Qed.

Lemma reduces_init (p : rocket) (r : rigid) :
  initial_angle_deg r = 0 -> reduces (V1.init p) (V3.init p r).
Proof.
  intros Ha. unfold reduces, V1.init, V3.init; simpl.
  rewrite Ha. unfold radians. repeat split; try reflexivity. ring.
Qed.

(** With no drag and no initial tilt, v1 and v3 run in lockstep. *)
Lemma reduction_lockstep (p : rocket) (q : aero) (r : rigid) (fuel : nat) :
  C_d q = 0 -> initial_angle_deg r = 0 -> moment_of_inertia_I r <> 0 ->
  same_outcome reduces (V1.simulate p fuel) (V3.simulate p q r fuel).
Proof.
  intros Hc Ha HI. unfold V1.simulate, V3.simulate.
  destruct (propellant_mass p // burn_time p) as [mfr| |]; simpl;
    try constructor.
  apply while_loop_lockstep.
  - intros a b (Ht & Hy & _). unfold V1.cond, V3.cond. rewrite Ht, Hy.
    reflexivity.
  - intros a b Hab. apply reduces_body; assumption.
  - apply reduces_init; assumption.
Qed.

(** C6.  With a zero drag coefficient and a zero initial attitude angle
    (and a non-zero moment of inertia, as the data model requires), v3
    and v1 on the same rocket parameters and step size end alike for every
    iteration budget, and after any number of iterations: the recorded
    times, vertical positions and vertical velocities of v3 are those of
    v1, exactly, and horizontal position, horizontal velocity, attitude
    angle and angular velocity are zero in the state and in every recorded
    sample. *)
Theorem rigid_body_reduces_to_point_mass
  (p : rocket) (q : aero) (r : rigid) :
  C_d q = 0 -> initial_angle_deg r = 0 -> moment_of_inertia_I r <> 0 ->
  (forall fuel,
     same_outcome reduces (V1.simulate p fuel) (V3.simulate p q r fuel)) /\
  (forall mfr n,
     same_outcome reduces
       (iterate (V1.body p mfr) n (V1.init p))
       (iterate (V3.body p q r mfr) n (V3.init p r))).
Proof.
  intros Hc Ha HI; split.
  - intros fuel. apply reduction_lockstep; assumption.
  - intros mfr n. apply iterate_lockstep.
    + intros a b Hab. apply reduces_body; assumption.
    + apply reduces_init; assumption.
Qed.

(** ** Mass stays positive; runs that never end *)

Lemma profile_valid (p : rocket) (mfr t ct m' : R) :
  0 <= mfr -> mfr * burn_time p = propellant_mass p ->
  flight_profile p mfr t = (ct, m') ->
  burnout_mass p <= m' /\ (ct = thrust p \/ ct = 0).
Proof.
  intros Hm Hflow Hp.
  pose proof (profile_mass_lower p mfr t Hm Hflow) as Hlow.
  rewrite Hp in Hlow; simpl in Hlow. split; [assumption |].
  revert Hp; unfold flight_profile; cmp; intros Hp; inversion Hp; auto.
Qed.




Lemma V1_body_defined (p : rocket) (mfr : R) (s : V1.state) :
  0 < burnout_mass p -> 0 <= mfr -> mfr * burn_time p = propellant_mass p ->
  exists s', V1.body p mfr s = Done s' /\ burnout_mass p <= V1.m s'.
Proof.
  intros Hbo Hm Hflow.
  destruct (flight_profile p mfr (V1.t s)) as [ct m'] eqn:Ep.
  destruct (profile_valid _ _ _ _ _ Hm Hflow Ep) as (Hlow & _).
  eexists; split.
  - eapply V1_body_eval; [exact Ep | lra | reflexivity ..].
  - simpl; assumption.
Qed.

Lemma V2_body_defined (p : rocket) (q : aero) (mfr : R) (s : V2.state) :
  0 < burnout_mass p -> 0 <= mfr -> mfr * burn_time p = propellant_mass p ->
  exists s', V2.body p q mfr s = Done s' /\ burnout_mass p <= V2.m s'.
Proof.
  intros Hbo Hm Hflow. unfold V2.body.
  destruct (flight_profile p mfr (V2.t s)) as [ct m'] eqn:Ep.
  destruct (profile_valid _ _ _ _ _ Hm Hflow Ep) as (Hlow & _).
  rewrite divide_Done by lra. simpl.
  eexists; split; [reflexivity | simpl; assumption].
Qed.

Lemma V3_body_defined (p : rocket) (q : aero) (r : rigid) (mfr : R)
  (s : V3.state) :
  0 < burnout_mass p -> 0 <= mfr -> mfr * burn_time p = propellant_mass p ->
  moment_of_inertia_I r <> 0 ->
  exists s', V3.body p q r mfr s = Done s' /\ burnout_mass p <= V3.m s'.
Proof.
  intros Hbo Hm Hflow HI. unfold V3.body.
  destruct (flight_profile p mfr (V3.t s)) as [ct m'] eqn:Ep.
  destruct (profile_valid _ _ _ _ _ Hm Hflow Ep) as (Hlow & _).
  rewrite drag_force_Done.
  destruct (Rgtb _ _); simpl;
    rewrite !divide_Done by (assumption || lra); simpl;
    eexists; (split; [reflexivity | simpl; assumption]).
Qed.



(** ** Runs that land *)










(** ** The only exit of the loop *)





(** ** No validation of the parameters *)

Lemma overloaded_run : V1.simulate overloaded 4 = Done overloaded_final.
Proof.
  unfold V1.simulate, overloaded_final.
  rewrite divide_Done by (simpl; lra).
  unfold bind, V1.init.
  v1_iter 40 2 10 1 10 10.
  v1_iter 0 (-1) (-10) 2 10 0.
  v1_iter 0 (-1) (-10) 3 0 (-10).
  v1_iter 0 (-1) (-10) 4 (-20) (-20).
  apply while_loop_exit. unfold V1.cond; cond_at.
Qed.

(** A rocket with more propellant than launch mass is not rejected: its
    run completes, on a negative mass. *)
Lemma overloaded_is_accepted :
  propellant_mass overloaded >= initial_mass overloaded /\
  exists s', V1.simulate overloaded 4 = Done s' /\
             V1.time_list s' = [0; 1; 2; 3] /\
             V1.m s' < 0.
Proof.
  split; [simpl; lra |].
  exists overloaded_final; split; [exact overloaded_run |].
  simpl; split; [reflexivity | lra].
Qed.

Lemma V1_init_cond (p : rocket) : V1.cond (V1.init p) = true.
Proof.
  unfold V1.cond; simpl. apply orb_true_iff; right.
  apply Reqb_true; reflexivity.
Qed.

Lemma V3_init_cond (p : rocket) (r : rigid) : V3.cond (V3.init p r) = true.
Proof.
  unfold V3.cond; simpl. apply orb_true_iff; right.
  apply Reqb_true; reflexivity.
Qed.

Lemma V1_body_fault (p : rocket) (mfr : R) (s : V1.state) :
  V1.body p mfr s = ZeroDivision <->
  snd (flight_profile p mfr (V1.t s)) = 0.
Proof.
  unfold V1.body.
  destruct (flight_profile p mfr (V1.t s)) as [ct m']; simpl.
  unfold divide; destruct (Req_dec_T m' 0); simpl; split; intros; easy.
Qed.

(** C8 (as amended).  The scripts validate nothing and name no field.  A
    zero burn duration stops v1 and v3 by the division fault of the
    mass-flow rate, before the loop.  Every other configuration, whatever
    the signs of its masses and areas, enters the loop and runs the first
    iteration on the parameters as given; in v1 an iteration faults
    exactly when the profile's mass at its time is zero, and a negative
    mass is divided by like any other. *)
Theorem no_configuration_is_validated (p : rocket) :
  (burn_time p = 0 ->
     (forall fuel, V1.simulate p fuel = ZeroDivision) /\
     (forall q r fuel, V3.simulate p q r fuel = ZeroDivision)) /\
  (burn_time p <> 0 ->
     let mass_flow_rate := propellant_mass p / burn_time p in
     (forall fuel,
        V1.simulate p (Datatypes.S fuel) =
        (s' <- V1.body p mass_flow_rate (V1.init p) ;;
         while_loop V1.cond (V1.body p mass_flow_rate) fuel s')) /\
     (forall q r fuel,
        V3.simulate p q r (Datatypes.S fuel) =
        (s' <- V3.body p q r mass_flow_rate (V3.init p r) ;;
         while_loop V3.cond (V3.body p q r mass_flow_rate) fuel s'))) /\
  (forall mass_flow_rate s,
     V1.body p mass_flow_rate s = ZeroDivision <->
     snd (flight_profile p mass_flow_rate (V1.t s)) = 0).
Proof.
  split; [| split].
  - intros Hb; split; intros; unfold V1.simulate, V3.simulate;
      rewrite Hb, divide_zero; reflexivity.
  - intros Hb mfr; split; intros; unfold V1.simulate, V3.simulate;
      rewrite divide_Done by assumption; unfold bind at 1; fold mfr; simpl.
    + rewrite V1_init_cond; reflexivity.
    + rewrite V3_init_cond; reflexivity.
  - intros; apply V1_body_fault.
Qed.

(** ** Mass over time *)

(** C9.  For a valid engine (0 < propellant mass < initial mass, burn
    time > 0) the mass-flow rate is defined and the mass returned by the
    flight profile is non-increasing in time, equals the burnout mass at
    every [t >= burn_time], and is never below the burnout mass, which is
    positive: it never goes negative and never rises again after
    burnout. *)
Theorem mass_is_non_increasing (p : rocket) :
  valid_engine p ->
  exists mass_flow_rate,
    propellant_mass p // burn_time p = Done mass_flow_rate /\
    (forall t1 t2, t1 <= t2 ->
       snd (flight_profile p mass_flow_rate t2)
       <= snd (flight_profile p mass_flow_rate t1)) /\
    (forall t, burn_time p <= t ->
       snd (flight_profile p mass_flow_rate t) = burnout_mass p) /\
    (forall t, 0 < burnout_mass p <= snd (flight_profile p mass_flow_rate t)).
Proof.
  intros Hv. destruct (valid_flow p Hv) as (mfr & Hd & Hm & Hflow).
  destruct Hv as (Hp & Hi & Hb).
  exists mfr; split; [assumption |]. repeat split.
  - intros t1 t2 Hle.
    destruct (Rlt_dec t2 (burn_time p)) as [H2 | H2].
    + rewrite !profile_burning by lra; simpl.
      assert (mfr * t1 <= mfr * t2) by (apply Rmult_le_compat_l; lra). lra.
    + rewrite (profile_coasting p mfr t2) by lra; simpl.
      apply profile_mass_lower; [lra | assumption].
  - intros t Ht. rewrite profile_coasting by assumption. reflexivity.
  - unfold burnout_mass; lra.
  - apply profile_mass_lower; [lra | assumption].
Qed.

(** ** The acceleration division *)

Lemma while_loop_no_fault {S : Type} (cond : S -> bool)
  (body : S -> outcome S) :
  (forall s, body s <> ZeroDivision) ->
  forall fuel s, while_loop cond body fuel s <> ZeroDivision.
Proof.
  intros Hb; induction fuel as [| n IH]; intros s; simpl;
    destruct (cond s); try discriminate.
  destruct (body s) as [s1| |] eqn:E; simpl; try discriminate.
  - apply IH.
  - exfalso; apply (Hb s); assumption.
Qed.

(** C10.  For a valid engine the mass-flow rate is defined, the burnout
    mass is positive and the mass [m] that an iteration divides by is at
    least the burnout mass at every time.  Hence no iteration of v1 or
    v2 divides by zero, from any state, no run of v1 or v2 ends in a
    division fault, and an iteration of v3 is defined as soon as the
    moment of inertia, its other divisor, is not zero. *)
Theorem acceleration_division_is_safe (p : rocket) :
  valid_engine p ->
  exists mass_flow_rate,
    propellant_mass p // burn_time p = Done mass_flow_rate /\
    0 < burnout_mass p /\
    (forall t, burnout_mass p <= snd (flight_profile p mass_flow_rate t)) /\
    (forall s, exists s',
       V1.body p mass_flow_rate s = Done s' /\ burnout_mass p <= V1.m s') /\
    (forall q s, exists s',
       V2.body p q mass_flow_rate s = Done s' /\ burnout_mass p <= V2.m s') /\
    (forall q r s, moment_of_inertia_I r <> 0 -> exists s',
       V3.body p q r mass_flow_rate s = Done s' /\
       burnout_mass p <= V3.m s') /\
    (forall fuel, V1.simulate p fuel <> ZeroDivision) /\
    (forall q fuel, V2.simulate p q fuel <> ZeroDivision) /\
    (forall q r fuel, moment_of_inertia_I r <> 0 ->
       V3.simulate p q r fuel <> ZeroDivision).
Proof.
  intros Hv. destruct (valid_flow p Hv) as (mfr & Hd & Hm & Hflow).
  assert (Hbo : 0 < burnout_mass p).
  { destruct Hv as (Hp & Hi & Hb). unfold burnout_mass; lra. }
  assert (Hm0 : 0 <= mfr) by lra.
  exists mfr; split; [assumption |]. split; [assumption |].
  split; [| split; [| split; [| split; [| split; [| split]]]]].
  - intros t. apply profile_mass_lower; assumption.
  - intros s. apply V1_body_defined; assumption.
  - intros q s. apply V2_body_defined; assumption.
  - intros q r s HI. apply V3_body_defined; assumption.
  - intros fuel. unfold V1.simulate. rewrite Hd; simpl.
    apply while_loop_no_fault. intros s E.
    destruct (V1_body_defined p mfr s Hbo Hm0 Hflow) as (s' & E' & _).
    congruence.
  - intros q fuel. unfold V2.simulate. rewrite Hd; simpl.
    apply while_loop_no_fault. intros s E.
    destruct (V2_body_defined p q mfr s Hbo Hm0 Hflow) as (s' & E' & _).
    congruence.
  - intros q r fuel HI. unfold V3.simulate. rewrite Hd; simpl.
    apply while_loop_no_fault. intros s E.
    destruct (V3_body_defined p q r mfr s Hbo Hm0 Hflow HI) as (s' & E' & _).
    congruence.
Qed.

(** ** Drag *)

Lemma A_nonneg (q : aero) : 0 <= A q.
Proof.
  unfold A. apply Rmult_le_pos; [left; exact PI_RGT_0 | apply pow2_ge_0].
Qed.

Lemma F_drag_nonneg (q : aero) (vx vy : R) :
  0 <= rho q -> 0 <= C_d q -> 0 <= V3.F_drag q vx vy.
Proof.
  intros Hr Hc. unfold V3.F_drag.
  apply Rmult_le_pos; [| apply A_nonneg].
  apply Rmult_le_pos; [| assumption].
  apply Rmult_le_pos; [| apply pow2_ge_0].
  apply Rmult_le_pos; lra.
Qed.

Lemma F_drag_pos (q : aero) (vx vy : R) :
  0 < rho q -> 0 < C_d q -> rocket_diameter q <> 0 -> vx <> 0 \/ vy <> 0 ->
  0 < V3.F_drag q vx vy.
Proof.
  intros Hr Hc Hd Hv. unfold V3.F_drag. rewrite v_mag_sq.
  assert (0 < vx ^ 2 + vy ^ 2).
  { pose proof (pow2_ge_0 vx). pose proof (pow2_ge_0 vy).
    destruct Hv as [Hv | Hv]; apply (pow_nonzero _ 2) in Hv; lra. }
  assert (0 < A q).
  { unfold A. apply Rmult_lt_0_compat; [exact PI_RGT_0 |].
    assert (rocket_diameter q / 2 <> 0) by lra.
    pose proof (pow2_ge_0 (rocket_diameter q / 2)).
    apply (pow_nonzero _ 2) in H0. lra. }
  apply Rmult_lt_0_compat; [| assumption].
  apply Rmult_lt_0_compat; [| assumption].
  apply Rmult_lt_0_compat; [| assumption].
  apply Rmult_lt_0_compat; lra.
Qed.

Lemma V2_F_drag_nonneg (q : aero) (v : R) :
  0 <= rho q -> 0 <= C_d q -> 0 <= V2.F_drag q v.
Proof.
  intros Hr Hc. unfold V2.F_drag.
  apply Rmult_le_pos; [| apply A_nonneg].
  apply Rmult_le_pos; [| assumption].
  apply Rmult_le_pos; [| apply pow2_ge_0].
  apply Rmult_le_pos; lra.
Qed.


(** ** Angle of attack and restoring torque *)

Lemma sqrt_one_plus_ratio (x1 x2 d : R) :
  0 < x2 -> 0 < d -> d ^ 2 = x1 ^ 2 + x2 ^ 2 ->
  sqrt (1 + (x1 / x2)²) = d / x2.
Proof.
  intros H2 Hd Hsq. apply sqrt_lem_1.
  - pose proof (Rle_0_sqr (x1 / x2)). lra.
  - apply Rmult_le_pos; [lra | left; apply Rinv_0_lt_compat; assumption].
  - unfold Rsqr.
    transitivity (d ^ 2 / x2 ^ 2); [field; lra |].
    rewrite Hsq. field. lra.
Qed.

(** [arctan2 x1 x2] is the angle whose sine and cosine are [x1] and
    [x2] over the length of the vector, in every quadrant and on the
    axes. *)
Lemma arctan2_direction (x1 x2 : R) :
  x1 <> 0 \/ x2 <> 0 ->
  sin (arctan2 x1 x2) = x1 / sqrt (x1 ^ 2 + x2 ^ 2) /\
  cos (arctan2 x1 x2) = x2 / sqrt (x1 ^ 2 + x2 ^ 2).
Proof.
  intros Hnz.
  assert (Hpos : 0 < x1 ^ 2 + x2 ^ 2).
  { pose proof (pow2_ge_0 x1). pose proof (pow2_ge_0 x2).
    destruct Hnz as [H1 | H1]; apply (pow_nonzero _ 2) in H1; lra. }
  set (d := sqrt (x1 ^ 2 + x2 ^ 2)).
  assert (Hd : 0 < d) by (apply sqrt_lt_R0; assumption).
  assert (Hsq : d ^ 2 = x1 ^ 2 + x2 ^ 2) by (apply pow2_sqrt; lra).
  unfold arctan2. cmp.
  - rewrite sin_atan, cos_atan, (sqrt_one_plus_ratio x1 x2 d) by assumption.
    split; field; lra.
  - assert (Hr : sqrt (1 + (x1 / x2)²) = d / - x2).
    { replace (x1 / x2) with (- x1 / - x2) by (field; lra).
      apply sqrt_one_plus_ratio; [lra | assumption |].
      rewrite Hsq; ring. }
    rewrite neg_sin, neg_cos, sin_atan, cos_atan, Hr. split; field; lra.
  - assert (Hr : sqrt (1 + (x1 / x2)²) = d / - x2).
    { replace (x1 / x2) with (- x1 / - x2) by (field; lra).
      apply sqrt_one_plus_ratio; [lra | assumption |].
      rewrite Hsq; ring. }
    rewrite sin_minus, cos_minus, sin_PI, cos_PI, sin_atan, cos_atan, Hr.
    split; field; lra.
  - assert (H2 : x2 = 0) by lra. subst x2.
    assert (Hd1 : d = x1).
    { unfold d. replace (x1 ^ 2 + 0 ^ 2) with (x1 ^ 2) by ring.
      apply sqrt_pow2; lra. }
    rewrite sin_PI2, cos_PI2, Hd1. split; field; lra.
  - assert (H2 : x2 = 0) by lra. subst x2.
    assert (Hd1 : d = - x1).
    { unfold d. replace (x1 ^ 2 + 0 ^ 2) with ((- x1) ^ 2) by ring.
      apply sqrt_pow2; lra. }
    rewrite sin_neg, cos_neg, sin_PI2, cos_PI2, Hd1. split; field; lra.
  - exfalso. destruct Hnz; lra.
Qed.

(** C3.  The angle of attack of v3 is the attitude angle minus
    [arctan2 vx vy], the angle of the velocity vector from the vertical
    (its sine is [vx / speed] and its cosine [vy / speed] whatever the
    signs of [vx] and [vy], also where [vy = 0]); the torque is
    [- F_drag * cg_to_cp_distance * sin alpha]; and for a positive
    CG-to-CP distance the torque never has the sign of [sin alpha]: it is
    negative where [sin alpha] is positive, positive where it is negative,
    as soon as there is drag (positive density, drag coefficient and
    diameter, non-zero velocity). *)
Theorem restoring_torque_sign (q : aero) (r : rigid) (theta vx vy : R) :
  0 < cg_to_cp_distance r ->
  V3.alpha theta vx vy = theta - arctan2 vx vy /\
  (vx <> 0 \/ vy <> 0 ->
     sin (arctan2 vx vy) = vx / V3.v_mag vx vy /\
     cos (arctan2 vx vy) = vy / V3.v_mag vx vy) /\
  V3.torque q r theta vx vy
  = - (0.5 * rho q * (V3.v_mag vx vy) ^ 2 * C_d q * A q)
    * cg_to_cp_distance r * sin (V3.alpha theta vx vy) /\
  (0 <= rho q -> 0 <= C_d q ->
     V3.torque q r theta vx vy * sin (V3.alpha theta vx vy) <= 0) /\
  (0 < rho q -> 0 < C_d q -> rocket_diameter q <> 0 -> vx <> 0 \/ vy <> 0 ->
     (0 < sin (V3.alpha theta vx vy) -> V3.torque q r theta vx vy < 0) /\
     (sin (V3.alpha theta vx vy) < 0 -> 0 < V3.torque q r theta vx vy)).
Proof.
  intros Hcg. split; [reflexivity |]. split; [apply arctan2_direction |].
  split; [reflexivity |]. split.
  - intros Hr Hc. pose proof (F_drag_nonneg q vx vy Hr Hc) as HF.
    unfold V3.torque.
    set (F := V3.F_drag q vx vy) in *.
    set (sa := sin (V3.alpha theta vx vy)).
    assert (0 <= F * cg_to_cp_distance r) by (apply Rmult_le_pos; lra).
    pose proof (Rle_0_sqr sa) as Hs. unfold Rsqr in Hs.
    replace (- F * cg_to_cp_distance r * sa * sa)
      with (- ((F * cg_to_cp_distance r) * (sa * sa))) by ring.
    pose proof (Rmult_le_pos _ _ H Hs). lra.
  - intros Hr Hc Hd Hv. pose proof (F_drag_pos q vx vy Hr Hc Hd Hv) as HF.
    unfold V3.torque.
    set (F := V3.F_drag q vx vy) in *.
    set (sa := sin (V3.alpha theta vx vy)).
    assert (Hk : 0 < F * cg_to_cp_distance r) by (apply Rmult_lt_0_compat; lra).
    replace (- F * cg_to_cp_distance r * sa)
      with (- ((F * cg_to_cp_distance r) * sa)) by ring.
    split; intros Hs.
    + pose proof (Rmult_lt_0_compat _ _ Hk Hs). lra.
    + assert (0 < (F * cg_to_cp_distance r) * (- sa))
        by (apply Rmult_lt_0_compat; lra).
      lra.
Qed.

(** ** The sample runs, against the statements above *)

Lemma short_hop_valid : valid_engine short_hop.
Proof. unfold valid_engine; simpl; lra. Qed.


(** In [short_hop] the last recorded sample is (t = 3, h = 0); the state
    below ground, (t = 4, h = -20), is in no list. *)
Lemma short_hop_final_sample :
  exists s',
    V1.simulate short_hop 4 = Done s' /\
    V1.t s' = 4 /\ V1.h s' = -20 /\
    V1.time_list s' = [0; 1; 2; 3] /\
    V1.height_list s' = [0; 10; 10; 0] /\
    ~ (last (V1.height_list s') 0 < 0) /\
    last (V1.time_list s') 0 <> V1.t s' /\
    ~ In (V1.h s') (V1.height_list s').
Proof.
  exists short_hop_final. split; [exact short_hop_run |].
  simpl. repeat split; try reflexivity; lra.
Qed.

Lemma final_sample_is_last_airborne_witness :
  V1.simulate short_hop 4 = Done short_hop_final /\
  Forall nonneg (V1.height_list short_hop_final) /\
  V1.h short_hop_final < 0 /\
  exists tl hl t_last h_last,
    V1.time_list short_hop_final = tl ++ [t_last] /\
    V1.height_list short_hop_final = hl ++ [h_last] /\
    length hl = length tl /\
    0 <= h_last /\
    V1.t short_hop_final = t_last + dt short_hop /\
    V1.h short_hop_final = h_last + V1.v short_hop_final * dt short_hop.
Proof.
  split; [exact short_hop_run |].
  exact (proj1 final_sample_is_last_airborne short_hop 4%nat short_hop_final
           short_hop_run).
Defined.


Lemma restoring_torque_sign_witness :
  0 < cg_to_cp_distance upright /\
  V3.torque unit_drag upright 1 0 1
  = - (0.5 * rho unit_drag * (V3.v_mag 0 1) ^ 2 * C_d unit_drag * A unit_drag)
    * cg_to_cp_distance upright * sin (V3.alpha 1 0 1).
Proof.
  assert (H : 0 < cg_to_cp_distance upright) by (simpl; lra).
  split; [exact H |].
  exact (proj1 (proj2 (proj2
           (restoring_torque_sign unit_drag upright 1 0 1 H)))).
Defined.

Lemma flight_profile_spec_witness :
  0 <= 0 /\
  exists current_thrust m : R,
    flight_profile short_hop 1 0 = (current_thrust, m) /\
    (0 < burn_time short_hop ->
       current_thrust = thrust short_hop /\
       m = initial_mass short_hop - 1 * 0) /\
    (~ 0 < burn_time short_hop ->
       current_thrust = 0 /\
       m = initial_mass short_hop - propellant_mass short_hop).
Proof.
  assert (H : 0 <= 0) by lra.
  split; [exact H | exact (flight_profile_spec short_hop 1 0 H)].
Defined.


Lemma rigid_body_reduces_to_point_mass_witness :
  C_d no_drag = 0 /\ initial_angle_deg upright = 0 /\
  moment_of_inertia_I upright <> 0 /\
  same_outcome reduces (V1.simulate short_hop 4)
    (V3.simulate short_hop no_drag upright 4).
Proof.
  assert (Hc : C_d no_drag = 0) by reflexivity.
  assert (Ha : initial_angle_deg upright = 0) by reflexivity.
  assert (HI : moment_of_inertia_I upright <> 0) by (simpl; lra).
  repeat split; try assumption.
  exact (proj1 (rigid_body_reduces_to_point_mass short_hop no_drag upright
                  Hc Ha HI) 4%nat).
Defined.


Lemma no_configuration_is_validated_witness :
  burn_time overloaded <> 0 /\
  V1.simulate overloaded 4 =
  (s' <- V1.body overloaded (propellant_mass overloaded / burn_time overloaded)
           (V1.init overloaded) ;;
   while_loop V1.cond
     (V1.body overloaded (propellant_mass overloaded / burn_time overloaded))
     3 s').
Proof.
  assert (Hb : burn_time overloaded <> 0) by (simpl; lra).
  split; [exact Hb |].
  exact (proj1 (proj1 (proj2 (no_configuration_is_validated overloaded)) Hb)
           3%nat).
Defined.

Lemma mass_is_non_increasing_witness :
  valid_engine short_hop /\
  exists mass_flow_rate,
    propellant_mass short_hop // burn_time short_hop = Done mass_flow_rate /\
    (forall t1 t2, t1 <= t2 ->
       snd (flight_profile short_hop mass_flow_rate t2)
       <= snd (flight_profile short_hop mass_flow_rate t1)) /\
    (forall t, burn_time short_hop <= t ->
       snd (flight_profile short_hop mass_flow_rate t)
       = burnout_mass short_hop) /\
    (forall t, 0 < burnout_mass short_hop
               <= snd (flight_profile short_hop mass_flow_rate t)).
Proof.
  split; [exact short_hop_valid |].
  exact (mass_is_non_increasing short_hop short_hop_valid).
Defined.

Lemma acceleration_division_is_safe_witness :
  valid_engine short_hop /\
  exists mass_flow_rate,
    propellant_mass short_hop // burn_time short_hop = Done mass_flow_rate /\
    0 < burnout_mass short_hop /\
    (forall t, burnout_mass short_hop
               <= snd (flight_profile short_hop mass_flow_rate t)) /\
    (forall fuel, V1.simulate short_hop fuel <> ZeroDivision).
Proof.
  split; [exact short_hop_valid |].
  destruct (acceleration_division_is_safe short_hop short_hop_valid)
    as (mfr & Hd & Hbo & Hlow & _ & _ & _ & H1 & _).
  exists mfr; auto.
Defined.

(** * Further properties of the scripts *)

(** ** Invariants of a whole run *)

Lemma V1_run_invariant (p : rocket) (P : V1.state -> Prop) (fuel : nat)
  (s' : V1.state) :
  P (V1.init p) ->
  (forall mfr s s1, propellant_mass p // burn_time p = Done mfr ->
                    P s -> V1.cond s = true -> V1.body p mfr s = Done s1 ->
                    P s1) ->
  V1.simulate p fuel = Done s' ->
  P s' /\ V1.cond s' = false /\
  exists mfr s_prev,
    propellant_mass p // burn_time p = Done mfr /\
    P s_prev /\ V1.cond s_prev = true /\ V1.body p mfr s_prev = Done s'.
Proof.
  intros H0 Hstep. unfold V1.simulate.
  destruct (propellant_mass p // burn_time p) as [mfr| |] eqn:Em; simpl;
    try discriminate.
  intros H. pose proof (Hstep mfr) as Hstep'.
  assert (Hk : forall s s1, P s -> _ -> _ -> P s1)
    by (intros s s1; exact (Hstep' s s1 eq_refl)).
  clear Hstep Hstep'. rewrite <- and_assoc. split.
  - apply (while_loop_done V1.cond (V1.body p mfr) P Hk fuel _ _ H0 H).
  - exists mfr.
    destruct (while_loop_last V1.cond (V1.body p mfr) P Hk fuel _ _
             H0 (V1_init_cond p) H) as (sp & Hsp).
    exists sp; auto.
Qed.

Lemma V2_init_cond (p : rocket) : V2.cond (V2.init p) = true.
Proof.
  unfold V2.cond; simpl. apply orb_true_iff; right.
  apply Reqb_true; reflexivity.
Qed.

Lemma V2_run_invariant (p : rocket) (q : aero) (P : V2.state -> Prop)
  (fuel : nat) (s' : V2.state) :
  P (V2.init p) ->
  (forall mfr s s1, propellant_mass p // burn_time p = Done mfr ->
                    P s -> V2.cond s = true -> V2.body p q mfr s = Done s1 ->
                    P s1) ->
  V2.simulate p q fuel = Done s' ->
  P s' /\ V2.cond s' = false /\
  exists mfr s_prev,
    propellant_mass p // burn_time p = Done mfr /\
    P s_prev /\ V2.cond s_prev = true /\ V2.body p q mfr s_prev = Done s'.
Proof.
  intros H0 Hstep. unfold V2.simulate.
  destruct (propellant_mass p // burn_time p) as [mfr| |] eqn:Em; simpl;
    try discriminate.
  intros H. pose proof (Hstep mfr) as Hstep'.
  assert (Hk : forall s s1, P s -> _ -> _ -> P s1)
    by (intros s s1; exact (Hstep' s s1 eq_refl)).
  clear Hstep Hstep'. rewrite <- and_assoc. split.
  - apply (while_loop_done V2.cond (V2.body p q mfr) P Hk fuel _ _
             H0 H).
  - exists mfr.
    destruct (while_loop_last V2.cond (V2.body p q mfr) P Hk fuel _ _
             H0 (V2_init_cond p) H) as (sp & Hsp).
    exists sp; auto.
Qed.

Lemma V3_run_invariant (p : rocket) (q : aero) (r : rigid)
  (P : V3.state -> Prop) (fuel : nat) (s' : V3.state) :
  P (V3.init p r) ->
  (forall mfr s s1, propellant_mass p // burn_time p = Done mfr ->
                    P s -> V3.cond s = true ->
                    V3.body p q r mfr s = Done s1 -> P s1) ->
  V3.simulate p q r fuel = Done s' ->
  P s' /\ V3.cond s' = false /\
  exists mfr s_prev,
    propellant_mass p // burn_time p = Done mfr /\
    P s_prev /\ V3.cond s_prev = true /\ V3.body p q r mfr s_prev = Done s'.
Proof.
  intros H0 Hstep. unfold V3.simulate.
  destruct (propellant_mass p // burn_time p) as [mfr| |] eqn:Em; simpl;
    try discriminate.
  intros H. pose proof (Hstep mfr) as Hstep'.
  assert (Hk : forall s s1, P s -> _ -> _ -> P s1)
    by (intros s s1; exact (Hstep' s s1 eq_refl)).
  clear Hstep Hstep'. rewrite <- and_assoc. split.
  - apply (while_loop_done V3.cond (V3.body p q r mfr) P Hk fuel _ _
             H0 H).
  - exists mfr.
    destruct (while_loop_last V3.cond (V3.body p q r mfr) P Hk fuel _ _
             H0 (V3_init_cond p r) H) as (sp & Hsp).
    exists sp; auto.
Qed.

(** ** The shape of the recorded lists *)

Lemma clock_ticks_snoc (d : R) (n : nat) :
  clock_ticks d n ++ [INR n * d] = clock_ticks d (n + 1).
Proof.
  unfold clock_ticks. rewrite Nat.add_1_r, seq_S, map_app. reflexivity.
Qed.



Lemma hd_snoc (l : list R) (a b : R) : hd 0 ((l ++ [a]) ++ [b]) = hd 0 (l ++ [a]).
Proof. destruct l; reflexivity. Qed.

Lemma snoc_length (l : list R) (a : R) (n : nat) :
  length l = n -> length (l ++ [a]) = (n + 1)%nat.
Proof. intros <-. rewrite length_app. reflexivity. Qed.

Lemma V1_trace_init (p : rocket) : V1_trace p (V1.init p).
Proof. unfold V1_trace; simpl. repeat split; try reflexivity. lra. Qed.

Lemma V1_trace_body (p : rocket) (mfr : R) (s s' : V1.state) :
  V1_trace p s -> V1.body p mfr s = Done s' -> V1_trace p s'.
Proof.
  intros (Htl & Ht & Hh & Hv & Ha & Hh0 & Hv0) Hb.
  destruct (V1_body_inv _ _ _ _ Hb) as (ct & m' & a & _ & _ & ->).
  unfold V1_trace; simpl.
  set (n := length (V1.time_list s)) in *.
  rewrite (snoc_length _ (V1.t s) n eq_refl).
  repeat split.
  - rewrite Htl at 1. rewrite Ht. apply clock_ticks_snoc.
  - rewrite Ht, Nat.add_1_r, S_INR. lra.
  - apply snoc_length; assumption.
  - apply snoc_length; assumption.
  - apply snoc_length; assumption.
  - rewrite hd_snoc; assumption.
  - rewrite hd_snoc; assumption.
Qed.

Lemma V2_trace_init (p : rocket) : V2_trace p (V2.init p).
Proof. unfold V2_trace; simpl. repeat split; try reflexivity. lra. Qed.

Lemma V2_trace_body (p : rocket) (q : aero) (mfr : R) (s s' : V2.state) :
  V2_trace p s -> V2.body p q mfr s = Done s' -> V2_trace p s'.
Proof.
  intros (Htl & Ht & Hh & Hv & Ha & Hh0 & Hv0) Hb.
  destruct (V2_body_inv _ _ _ _ _ Hb) as (ct & m' & a & _ & _ & ->).
  unfold V2_trace; simpl.
  set (n := length (V2.time_list s)) in *.
  rewrite (snoc_length _ (V2.t s) n eq_refl).
  repeat split.
  - rewrite Htl at 1. rewrite Ht. apply clock_ticks_snoc.
  - rewrite Ht, Nat.add_1_r, S_INR. lra.
  - apply snoc_length; assumption.
  - apply snoc_length; assumption.
  - apply snoc_length; assumption.
  - rewrite hd_snoc; assumption.
  - rewrite hd_snoc; assumption.
Qed.

Lemma degrees_radians (a : R) : degrees (radians a) = a.
Proof.
  unfold degrees, radians. field. apply Rgt_not_eq. exact PI_RGT_0.
Qed.

Lemma V3_trace_init (p : rocket) (r : rigid) : V3_trace p r (V3.init p r).
Proof.
  unfold V3_trace; simpl.
  repeat split; try reflexivity; try lra.
  - apply degrees_radians.
  - apply degrees_0.
Qed.

Lemma V3_trace_body (p : rocket) (q : aero) (r : rigid) (mfr : R)
  (s s' : V3.state) :
  V3_trace p r s -> V3.body p q r mfr s = Done s' -> V3_trace p r s'.
Proof.
  intros (Htl & Ht & Hx & Hy & Hvx & Hvy & Hth & Hom &
          Hx0 & Hy0 & Hvx0 & Hvy0 & Hth0 & Hom0) Hb.
  destruct (V3_body_inv _ _ _ _ _ _ Hb)
    as (ct & m' & fx & fy & ax & ay & aa & _ & _ & _ & _ & _ & ->).
  unfold V3_trace; simpl.
  set (n := length (V3.time_l s)) in *.
  rewrite (snoc_length _ (V3.t s) n eq_refl).
  repeat split;
    try (apply snoc_length; assumption);
    try (rewrite hd_snoc; assumption).
  - rewrite Htl at 1. rewrite Ht. apply clock_ticks_snoc.
  - rewrite Ht, Nat.add_1_r, S_INR. lra.
Qed.

Lemma V1_run_trace (p : rocket) (fuel : nat) (s' : V1.state) :
  V1.simulate p fuel = Done s' ->
  V1_trace p s' /\ (1 <= length (V1.time_list s'))%nat.
Proof.
  intros H.
  destruct (V1_run_invariant p (V1_trace p) fuel s' (V1_trace_init p)) as
    (Hs' & _ & mfr & sp & _ & _ & _ & Hb); [| assumption |].
  - intros mfr s s1 _ Hs _ Hb. exact (V1_trace_body _ _ _ _ Hs Hb).
  - split; [assumption |].
    destruct (V1_body_inv _ _ _ _ Hb) as (ct & m' & a & _ & _ & ->).
    simpl. rewrite length_app; simpl; lia.
Qed.

Lemma V2_run_trace (p : rocket) (q : aero) (fuel : nat) (s' : V2.state) :
  V2.simulate p q fuel = Done s' ->
  V2_trace p s' /\ (1 <= length (V2.time_list s'))%nat.
Proof.
  intros H.
  destruct (V2_run_invariant p q (V2_trace p) fuel s' (V2_trace_init p)) as
    (Hs' & _ & mfr & sp & _ & _ & _ & Hb); [| assumption |].
  - intros mfr s s1 _ Hs _ Hb. exact (V2_trace_body _ _ _ _ _ Hs Hb).
  - split; [assumption |].
    destruct (V2_body_inv _ _ _ _ _ Hb) as (ct & m' & a & _ & _ & ->).
    simpl. rewrite length_app; simpl; lia.
Qed.

Lemma V3_run_trace (p : rocket) (q : aero) (r : rigid) (fuel : nat)
  (s' : V3.state) :
  V3.simulate p q r fuel = Done s' ->
  V3_trace p r s' /\ (1 <= length (V3.time_l s'))%nat.
Proof.
  intros H.
  destruct (V3_run_invariant p q r (V3_trace p r) fuel s' (V3_trace_init p r))
    as (Hs' & _ & mfr & sp & _ & _ & _ & Hb); [| assumption |].
  - intros mfr s s1 _ Hs _ Hb. exact (V3_trace_body _ _ _ _ _ _ Hs Hb).
  - split; [assumption |].
    destruct (V3_body_inv _ _ _ _ _ _ Hb)
      as (ct & m' & fx & fy & ax & ay & aa & _ & _ & _ & _ & _ & ->).
    simpl. rewrite length_app; simpl; lia.
Qed.




Lemma hd_snoc_nonempty (l : list R) (a : R) :
  (1 <= length l)%nat -> hd 0 (l ++ [a]) = hd 0 l.
Proof. destruct l; simpl; [lia | reflexivity]. Qed.



(** ** Free fall, powered ascent and touchdown in v1 *)



Lemma profile_mass_upper (p : rocket) (mfr t : R) :
  0 <= mfr -> 0 <= propellant_mass p -> 0 <= t ->
  snd (flight_profile p mfr t) <= initial_mass p.
Proof.
  intros Hm Hp Ht. unfold flight_profile, burnout_mass; cmp; simpl.
  - assert (0 <= mfr * t) by (apply Rmult_le_pos; assumption). lra.
  - lra.
Qed.

(** Under power, with thrust above the launch weight, one iteration of
    v1 strictly raises the velocity and, from a non-negative velocity, the
    altitude. *)
Lemma V1_powered_step (p : rocket) (mfr : R) (s : V1.state) :
  valid_engine p -> 0 < mfr -> mfr * burn_time p = propellant_mass p ->
  0 <= g p -> 0 < dt p -> initial_mass p * g p < thrust p ->
  0 <= V1.t s < burn_time p -> 0 <= V1.v s ->
  exists s', V1.body p mfr s = Done s' /\
             V1.v s < V1.v s' /\ V1.h s < V1.h s'.
Proof.
  intros (Hp & Hi & Hb) Hm Hflow Hg Hdt Hth (Ht0 & Ht1) Hv.
  pose proof (profile_mass_lower p mfr (V1.t s) (Rlt_le _ _ Hm) Hflow) as Hlo.
  pose proof (profile_mass_upper p mfr (V1.t s) (Rlt_le _ _ Hm)
                (Rlt_le _ _ Hp) Ht0) as Hup.
  rewrite (profile_burning p mfr _ Ht1) in Hlo, Hup. simpl in Hlo, Hup.
  unfold burnout_mass in Hlo.
  set (m' := initial_mass p - mfr * V1.t s) in *.
  assert (Hm' : 0 < m') by lra.
  assert (Ha : 0 < (thrust p - m' * g p) / m').
  { apply Rdiv_lt_0_compat; [| assumption].
    assert (m' * g p <= initial_mass p * g p)
      by (apply Rmult_le_compat_r; assumption).
    lra. }
  eexists; split.
  - eapply V1_body_eval;
      [apply profile_burning; assumption | fold m'; lra | reflexivity ..].
  - simpl. fold m'.
    assert (0 < (thrust p - m' * g p) / m' * dt p)
      by (apply Rmult_lt_0_compat; assumption).
    split; [lra |].
    assert (0 < (V1.v s + (thrust p - m' * g p) / m' * dt p) * dt p)
      by (apply Rmult_lt_0_compat; lra).
    lra.
Qed.

(** The invariant of a powered ascent: the clock is a multiple of [dt],
    and while the step that produced the state began before burnout,
    velocity and altitude are not negative. *)
Lemma V1_ascent_body (p : rocket) (mfr : R) (s s' : V1.state) :
  valid_engine p -> 0 < mfr -> mfr * burn_time p = propellant_mass p ->
  0 <= g p -> 0 < dt p -> initial_mass p * g p < thrust p ->
  0 <= V1.t s ->
  (V1.t s - dt p < burn_time p -> 0 <= V1.v s /\ 0 <= V1.h s) ->
  V1.body p mfr s = Done s' ->
  0 <= V1.t s' /\
  (V1.t s' - dt p < burn_time p -> 0 <= V1.v s' /\ 0 <= V1.h s').
Proof.
  intros Hv Hm Hflow Hg Hdt Hth Ht Hinv Hb.
  destruct (V1_body_inv _ _ _ _ Hb) as (ct & m' & a & _ & _ & E).
  assert (Ht' : V1.t s' = V1.t s + dt p) by (rewrite E; reflexivity).
  split; [lra |]. intros Hburn.
  destruct Hinv as (Hv0 & Hh0); [lra |].
  destruct (V1_powered_step p mfr s Hv Hm Hflow Hg Hdt Hth) as (s1 & Hb1 & H1 & H2);
    [lra | assumption |].
  rewrite Hb in Hb1. inversion Hb1; subst s1. lra.
Qed.




(** X6.  Under the same conditions v1 never lands under power: in a
    finished run the last recorded time, one [dt] before the clock at
    exit, is not before [burn_time], so the burnout query of [np.interp]
    falls inside the recorded times. *)
Theorem no_landing_under_power (p : rocket) (fuel : nat) (s' : V1.state) :
  valid_engine p -> 0 <= g p -> 0 < dt p ->
  initial_mass p * g p < thrust p ->
  V1.simulate p fuel = Done s' ->
  last (V1.time_list s') 0 = V1.t s' - dt p /\
  burn_time p <= last (V1.time_list s') 0.
Proof.
  intros Hv Hg Hdt Hth H.
  destruct (valid_flow p Hv) as (mfr0 & Hd & Hm & Hflow).
  destruct (V1_run_invariant p
              (fun s => 0 <= V1.t s /\
                        (V1.t s - dt p < burn_time p ->
                         0 <= V1.v s /\ 0 <= V1.h s)) fuel s')
    as ((Ht' & Hinv') & Hc & mfr & sp & _ & _ & _ & Hb); [| | assumption |].
  - simpl; split; lra.
  - intros mfr s s1 Em (Ht & Hinv) _ Hb.
    rewrite Hd in Em; inversion Em; subst mfr.
    exact (V1_ascent_body p mfr0 s s1 Hv Hm Hflow Hg Hdt Hth Ht Hinv Hb).
  - apply V1_cond_false in Hc as (Hneg & _).
    destruct (V1_body_inv _ _ _ _ Hb) as (ct & m' & a & _ & _ & E).
    assert (Hlast : last (V1.time_list s') 0 = V1.t s' - dt p).
    { rewrite E; simpl. rewrite last_last. lra. }
    split; [assumption |]. rewrite Hlast.
    destruct (Rlt_dec (V1.t s' - dt p) (burn_time p)) as [Hlt | Hge];
      [| lra].
    destruct (Hinv' Hlt); lra.
Qed.

(** X7.  Touchdown.  The state a finished run exits with is at most one
    step's travel below ground: the altitude is negative but not below
    [v * dt] for the velocity [v] at exit (vertical velocity in v3), and
    with [dt > 0] that velocity is negative, the rocket is coming down. *)
Theorem touchdown_within_one_step :
  (forall p fuel s', V1.simulate p fuel = Done s' ->
     V1.v s' * dt p <= V1.h s' < 0 /\ (0 < dt p -> V1.v s' < 0)) /\
  (forall p q fuel s', V2.simulate p q fuel = Done s' ->
     V2.v s' * dt p <= V2.h s' < 0 /\ (0 < dt p -> V2.v s' < 0)) /\
  (forall p q r fuel s', V3.simulate p q r fuel = Done s' ->
     V3.vy s' * dt p <= V3.y s' < 0 /\ (0 < dt p -> V3.vy s' < 0)).
Proof.
  split; [| split].
  - intros p fuel s' H.
    destruct (V1_run_done _ _ _ H) as (mfr & sp & _ & Hp & Hcp & Hb & _ & Hc).
    pose proof (V1_cond_true _ _ Hp Hcp) as Hh.
    apply V1_cond_false in Hc as (Hneg & _).
    destruct (V1_body_inv _ _ _ _ Hb) as (ct & m' & a & _ & _ & E).
    rewrite E in *; simpl in *.
    split; [lra |]. intros Hdt. nra.
  - intros p q fuel s' H.
    destruct (V2_run_done _ _ _ _ H) as (mfr & sp & _ & Hp & Hcp & Hb & _ & Hc).
    pose proof (V2_cond_true _ _ Hp Hcp) as Hh.
    apply V2_cond_false in Hc as (Hneg & _).
    destruct (V2_body_inv _ _ _ _ _ Hb) as (ct & m' & a & _ & _ & E).
    rewrite E in *; simpl in *.
    split; [lra |]. intros Hdt. nra.
  - intros p q r fuel s' H.
    destruct (V3_run_done _ _ _ _ _ H)
      as (mfr & sp & _ & Hp & Hcp & Hb & _ & Hc).
    pose proof (V3_cond_true _ _ Hp Hcp) as Hh.
    apply V3_cond_false in Hc as (Hneg & _).
    destruct (V3_body_inv _ _ _ _ _ _ Hb)
      as (ct & m' & fx & fy & ax & ay & aa & _ & _ & _ & _ & _ & E).
    rewrite E in *; simpl in *.
    split; [lra |]. intros Hdt. nra.
Qed.

(** ** Runs without drag *)

Lemma A_zero (q : aero) : rocket_diameter q = 0 -> A q = 0.
Proof. intros H. unfold A. rewrite H. field. Qed.

Lemma V2_no_drag (q : aero) (v : R) :
  rho q = 0 \/ C_d q = 0 \/ rocket_diameter q = 0 -> V2.drag_term q v = 0.
Proof.
  intros [H | [H | H]]; unfold V2.drag_term, V2.F_drag;
    [rewrite H | rewrite H | rewrite (A_zero q H)]; ring.
Qed.

Lemma V3_no_drag (q : aero) (vx vy : R) :
  rho q = 0 \/ C_d q = 0 \/ rocket_diameter q = 0 -> V3.F_drag q vx vy = 0.
Proof.
  intros [H | [H | H]]; unfold V3.F_drag;
    [rewrite H | rewrite H | rewrite (A_zero q H)]; ring.
Qed.

Lemma same_flight_body (p : rocket) (q : aero) (mfr : R)
  (s1 : V1.state) (s2 : V2.state) :
  rho q = 0 \/ C_d q = 0 \/ rocket_diameter q = 0 ->
  same_flight s1 s2 ->
  same_outcome same_flight (V1.body p mfr s1) (V2.body p q mfr s2).
Proof.
  intros Hq (Ht & Hh & Hv & Hm & Htl & Hhl & Hvl & Hal).
  unfold V1.body, V2.body.
  rewrite Ht, Hh, Hv, Htl, Hhl, Hvl, Hal, (V2_no_drag q _ Hq).
  destruct (flight_profile p mfr (V1.t s1)) as [ct m'].
  rewrite Rminus_0_r.
  destruct ((ct - m' * g p) // m') as [a| |]; simpl; constructor.
  unfold same_flight; simpl. auto 10.
Qed.

(** X8.  Without drag v2 is v1.  When the density, the drag coefficient
    or the diameter is zero, v2 and v1 on the same rocket end alike for
    every iteration budget, with the same final state and the same four
    recorded lists. *)
Theorem v2_without_drag_is_v1 (p : rocket) (q : aero) (fuel : nat) :
  rho q = 0 \/ C_d q = 0 \/ rocket_diameter q = 0 ->
  same_outcome same_flight (V1.simulate p fuel) (V2.simulate p q fuel).
Proof.
  intros Hq. unfold V1.simulate, V2.simulate.
  destruct (propellant_mass p // burn_time p) as [mfr| |]; simpl;
    try constructor.
  apply while_loop_lockstep.
  - intros a b (Ht & Hh & _). unfold V1.cond, V2.cond. rewrite Ht, Hh.
    reflexivity.
  - intros a b Hab. apply same_flight_body; assumption.
  - unfold same_flight; simpl. auto 10.
Qed.

Lemma drag_force_vanishes (q : aero) (vx vy : R) :
  V3.F_drag q vx vy = 0 -> V3.drag_force q vx vy = Done (0, 0).
Proof.
  intros HF. rewrite drag_force_Done, HF.
  destruct (Rgtb _ _); [| reflexivity].
  do 2 f_equal; ring.
Qed.

Lemma reduces_body_no_drag (p : rocket) (q : aero) (r : rigid) (mfr : R)
  (s1 : V1.state) (s3 : V3.state) :
  rho q = 0 \/ C_d q = 0 \/ rocket_diameter q = 0 ->
  moment_of_inertia_I r <> 0 ->
  reduces s1 s3 ->
  same_outcome reduces (V1.body p mfr s1) (V3.body p q r mfr s3).
Proof.
  intros Hq HI
    (Ht & Hy & Hvy & Hm & Hx & Hvx & Hth & Hom &
     Htl & Hyl & Hvyl & Hxl & Hvxl & Hthl & Homl).
  pose proof (V3_no_drag q (V3.vx s3) (V3.vy s3) Hq) as HF.
  unfold V1.body, V3.body.
  rewrite Ht, (drag_force_vanishes _ _ _ HF).
  unfold V3.torque. rewrite HF.
  destruct (flight_profile p mfr (V1.t s1)) as [ct m'].
  rewrite Hth, sin_0, cos_0. unfold bind at 2.
  destruct (Req_dec_T m' 0) as [Hm0 | Hm0].
  - subst m'. rewrite !divide_zero. simpl. constructor.
  - rewrite !divide_Done by assumption. simpl.
    constructor. unfold reduces; simpl.
    rewrite Hy, Hvy, Hx, Hvx, Hom, Htl, Hyl, Hvyl, Hxl, Hvxl, Hthl, Homl.
    rewrite degrees_0, !repeat_snoc, length_app; simpl.
    repeat split; try reflexivity; try (field; assumption).
Qed.

(** X9.  v3 falls back to v1 not only for a zero drag coefficient: with
    a zero air density or a zero diameter as well, an upright launch
    ([initial_angle_deg = 0]) and a non-zero moment of inertia, v3 and v1
    end alike for every budget, the vertical lists of v3 being those of v1
    and everything else zero. *)
Theorem v3_without_air_is_v1 (p : rocket) (q : aero) (r : rigid)
  (fuel : nat) :
  rho q = 0 \/ C_d q = 0 \/ rocket_diameter q = 0 ->
  initial_angle_deg r = 0 -> moment_of_inertia_I r <> 0 ->
  same_outcome reduces (V1.simulate p fuel) (V3.simulate p q r fuel).
Proof.
  intros Hq Ha HI. unfold V1.simulate, V3.simulate.
  destruct (propellant_mass p // burn_time p) as [mfr| |]; simpl;
    try constructor.
  apply while_loop_lockstep.
  - intros a b (Ht & Hy & _). unfold V1.cond, V3.cond. rewrite Ht, Hy.
    reflexivity.
  - intros a b Hab. apply reduces_body_no_drag; assumption.
  - apply reduces_init; assumption.
Qed.

(** X10.  Drag works against the motion.  From the same time and
    velocity, with a positive mass, non-negative density and drag
    coefficient and [dt >= 0], one iteration of v2 leaves a velocity that
    is not above that of v1 when the rocket was not moving down, and not
    below it when the rocket was not moving up. *)
Theorem drag_slows_the_rocket (p : rocket) (q : aero) (mfr : R)
  (s1 s1' : V1.state) (s2 s2' : V2.state) :
  0 <= rho q -> 0 <= C_d q -> 0 <= dt p ->
  0 < snd (flight_profile p mfr (V1.t s1)) ->
  V2.t s2 = V1.t s1 -> V2.v s2 = V1.v s1 ->
  V1.body p mfr s1 = Done s1' -> V2.body p q mfr s2 = Done s2' ->
  (0 <= V1.v s1 -> V2.v s2' <= V1.v s1') /\
  (V1.v s1 <= 0 -> V1.v s1' <= V2.v s2').
Proof.
  intros Hr Hc Hdt Hm Ht Hv H1 H2.
  destruct (V1_body_inv _ _ _ _ H1) as (ct & m' & a1 & Ep & Ea1 & ->).
  destruct (V2_body_inv _ _ _ _ _ H2) as (ct2 & m2 & a2 & Ep2 & Ea2 & ->).
  rewrite Ht, Ep in Ep2. inversion Ep2; subst ct2 m2.
  rewrite Ep in Hm; simpl in Hm.
  rewrite divide_Done in Ea1, Ea2 by lra.
  inversion Ea1; inversion Ea2; subst a1 a2. simpl. rewrite Hv.
  pose proof (V2_F_drag_nonneg q (V1.v s1) Hr Hc) as HF.
  set (F := V2.F_drag q (V1.v s1)) in *.
  assert (Hinv : 0 < / m') by (apply Rinv_0_lt_compat; assumption).
  assert (Hk : 0 <= / m' * dt p) by (apply Rmult_le_pos; lra).
  assert (Hd : (ct - m' * g p) / m' * dt p
               - (ct - m' * g p - V2.drag_term q (V1.v s1)) / m' * dt p
               = V2.drag_term q (V1.v s1) * (/ m' * dt p))
    by (field; lra).
  unfold V2.drag_term in *. fold F in Hd |- *.
  assert (HFk : 0 <= F * (/ m' * dt p)) by (apply Rmult_le_pos; lra).
  unfold sign in *. revert Hd. cmp; intros Hd; split; intros Hs; lra.
Qed.

(** ** The restoring torque without the arctangent *)

Lemma v_mag_zero (vx vy : R) : vx = 0 -> vy = 0 -> V3.v_mag vx vy = 0.
Proof.
  intros -> ->. unfold V3.v_mag.
  replace (0 ^ 2 + 0 ^ 2) with 0 by ring. apply sqrt_0.
Qed.

Lemma v_mag_pos (vx vy : R) : vx <> 0 \/ vy <> 0 -> 0 < V3.v_mag vx vy.
Proof.
  intros Hnz. unfold V3.v_mag. apply sqrt_lt_R0.
  pose proof (pow2_ge_0 vx). pose proof (pow2_ge_0 vy).
  destruct Hnz as [H1 | H1]; apply (pow_nonzero _ 2) in H1; lra.
Qed.

(** The sine of the angle of attack, times the speed, is the cross
    product of the body axis and the velocity. *)
Lemma sin_alpha_cross (theta vx vy : R) :
  sin (V3.alpha theta vx vy) * V3.v_mag vx vy
  = sin theta * vy - cos theta * vx.
Proof.
  destruct (Req_dec_T vx 0) as [Hx | Hx];
    [destruct (Req_dec_T vy 0) as [Hy | Hy] |].
  - rewrite (v_mag_zero _ _ Hx Hy). subst. ring.
  - unfold V3.alpha, V3.velocity_angle. rewrite sin_minus.
    destruct (arctan2_direction vx vy (or_intror Hy)) as (-> & ->).
    fold (V3.v_mag vx vy).
    pose proof (v_mag_pos vx vy (or_intror Hy)). field. lra.
  - unfold V3.alpha, V3.velocity_angle. rewrite sin_minus.
    destruct (arctan2_direction vx vy (or_introl Hx)) as (-> & ->).
    fold (V3.v_mag vx vy).
    pose proof (v_mag_pos vx vy (or_introl Hx)). field. lra.
Qed.

(** X11.  The restoring torque of v3 in closed form, for every attitude
    and velocity: [- (0.5 * rho * C_d * A) * cg_to_cp_distance * speed *
    (vy * sin theta - vx * cos theta)].  It vanishes at rest and whenever
    the velocity points along the body axis. *)
Theorem torque_is_a_cross_product (q : aero) (r : rigid) (theta vx vy : R) :
  V3.torque q r theta vx vy
  = - (0.5 * rho q * C_d q * A q) * cg_to_cp_distance r
    * V3.v_mag vx vy * (vy * sin theta - vx * cos theta) /\
  (vx = 0 -> vy = 0 -> V3.torque q r theta vx vy = 0) /\
  (forall speed,
     0 <= speed ->
     V3.torque q r theta (speed * sin theta) (speed * cos theta) = 0).
Proof.
  assert (Hform : forall th x y,
            V3.torque q r th x y
            = - (0.5 * rho q * C_d q * A q) * cg_to_cp_distance r
              * V3.v_mag x y * (y * sin th - x * cos th)).
  { intros th x y. unfold V3.torque, V3.F_drag.
    pose proof (sin_alpha_cross th x y) as Hs.
    replace (y * sin th - x * cos th)
      with (sin (V3.alpha th x y) * V3.v_mag x y) by (rewrite Hs; ring).
    ring. }
  split; [apply Hform |]. split.
  - intros Hx Hy. rewrite Hform, (v_mag_zero _ _ Hx Hy). ring.
  - intros speed _. rewrite Hform. ring.
Qed.

(** ** Mirror symmetry of v3 *)

Lemma v_mag_mirror (vx vy : R) : V3.v_mag (- vx) vy = V3.v_mag vx vy.
Proof. unfold V3.v_mag. f_equal. ring. Qed.

Lemma F_drag_mirror (q : aero) (vx vy : R) :
  V3.F_drag q (- vx) vy = V3.F_drag q vx vy.
Proof. unfold V3.F_drag. rewrite v_mag_mirror. reflexivity. Qed.

Lemma torque_mirror (q : aero) (r : rigid) (theta vx vy : R) :
  V3.torque q (tilt_opposite r) (- theta) (- vx) vy
  = - V3.torque q r theta vx vy.
Proof.
  unfold V3.torque, tilt_opposite. simpl. rewrite F_drag_mirror.
  pose proof (sin_alpha_cross theta vx vy) as H1.
  pose proof (sin_alpha_cross (- theta) (- vx) vy) as H2.
  rewrite v_mag_mirror, sin_neg, cos_neg in H2.
  destruct (Req_dec_T (V3.v_mag vx vy) 0) as [Hz | Hnz].
  - unfold V3.F_drag. rewrite Hz. ring.
  - assert (Hs : sin (V3.alpha (- theta) (- vx) vy)
                 = - sin (V3.alpha theta vx vy)).
    { apply (Rmult_eq_reg_r (V3.v_mag vx vy)); [| assumption].
      rewrite H2.
      replace (- sin (V3.alpha theta vx vy) * V3.v_mag vx vy)
        with (- (sin (V3.alpha theta vx vy) * V3.v_mag vx vy)) by ring.
      rewrite H1. ring. }
    rewrite Hs. ring.
Qed.

Lemma degrees_opp (a : R) : degrees (- a) = - degrees a.
Proof. unfold degrees. ring. Qed.

Lemma map_opp_snoc (l : list R) (a : R) :
  map Ropp l ++ [- a] = map Ropp (l ++ [a]).
Proof. rewrite map_app. reflexivity. Qed.

Lemma mirrored_body (p : rocket) (q : aero) (r : rigid) (mfr : R)
  (s s' : V3.state) :
  mirrored s s' ->
  same_outcome mirrored (V3.body p q r mfr s)
    (V3.body p q (tilt_opposite r) mfr s').
Proof.
  intros (Hx & Hy & Hvx & Hvy & Hth & Hom & Hm & Ht &
          Htl & Hxl & Hyl & Hvxl & Hvyl & Hthl & Homl).
  unfold V3.body.
  rewrite Hx, Hy, Hvx, Hvy, Hth, Hom, Ht, Htl, Hxl, Hyl, Hvxl, Hvyl, Hthl,
    Homl.
  rewrite torque_mirror, !drag_force_Done, v_mag_mirror, F_drag_mirror.
  rewrite sin_neg, cos_neg, !degrees_opp, !map_opp_snoc.
  change (moment_of_inertia_I (tilt_opposite r)) with (moment_of_inertia_I r).
  destruct (flight_profile p mfr (V3.t s)) as [ct m'].
  destruct (Req_dec_T m' 0) as [Hm0 | Hm0];
    [| destruct (Req_dec_T (moment_of_inertia_I r) 0) as [HI | HI]].
  - subst m'. destruct (Rgtb _ _); simpl; rewrite !divide_zero; simpl;
      constructor.
  - destruct (Rgtb _ _); simpl;
      rewrite !(divide_Done _ m') by assumption; simpl;
      rewrite HI, !divide_zero; simpl; constructor.
  - destruct (Rgtb (V3.v_mag (V3.vx s) (V3.vy s)) 1e-6) eqn:E; simpl;
      rewrite !(divide_Done _ m') by assumption; simpl;
      rewrite !(divide_Done _ (moment_of_inertia_I r)) by assumption; simpl;
      apply same_Done; unfold mirrored; simpl;
      repeat split; try reflexivity; try (field; assumption).
    all: apply Rltb_true in E; field; split; lra.
Qed.

Lemma mirrored_init (p : rocket) (r : rigid) :
  mirrored (V3.init p r) (V3.init p (tilt_opposite r)).
Proof.
  unfold mirrored, V3.init, tilt_opposite, radians; simpl.
  repeat split; try reflexivity; ring.
Qed.

(** X12.  v3 is mirror symmetric.  Launching with the opposite initial
    angle gives, for every iteration budget, the mirror image of the run:
    the same outcome, the same times, altitudes and vertical velocities,
    and the opposite horizontal positions, horizontal velocities, attitude
    angles and angular velocities, in the final state and in every
    recorded sample. *)
Theorem v3_is_mirror_symmetric (p : rocket) (q : aero) (r : rigid)
  (fuel : nat) :
  same_outcome mirrored (V3.simulate p q r fuel)
    (V3.simulate p q (tilt_opposite r) fuel).
Proof.
  unfold V3.simulate.
  destruct (propellant_mass p // burn_time p) as [mfr| |]; simpl;
    try constructor.
  apply while_loop_lockstep.
  - intros a b (_ & Hy & _ & _ & _ & _ & _ & Ht & _).
    unfold V3.cond. rewrite Ht, Hy. reflexivity.
  - intros a b Hab. apply mirrored_body; assumption.
  - apply mirrored_init.
Qed.

(** ** [np.max], [np.argmax] and [np.interp] *)

Lemma max_from_ge_best (best : R) (l : list R) : best <= max_from best l.
Proof.
  revert best; induction l as [| a l IH]; intros best; simpl; [lra |].
  specialize (IH (if Rltb best a then a else best)).
  revert IH; cmp; lra.
Qed.

Lemma max_from_ge_all (best : R) (l : list R) (a : R) :
  In a l -> a <= max_from best l.
Proof.
  revert best; induction l as [| b l IH]; intros best; simpl; [easy |].
  intros [<- | Hin].
  - pose proof (max_from_ge_best (if Rltb best b then b else best) l) as H.
    revert H; cmp; lra.
  - apply IH; assumption.
Qed.

Lemma max_from_in (best : R) (l : list R) :
  max_from best l = best \/ In (max_from best l) l.
Proof.
  revert best; induction l as [| b l IH]; intros best; simpl; [auto |].
  destruct (IH (if Rltb best b then b else best)) as [H | H]; [| auto].
  rewrite H. cmp; auto.
Qed.

(** [np.max] of a non-empty list is one of its elements and bounds all
    of them. *)
Lemma np_max_spec (l : list R) :
  l <> [] ->
  exists mx, np_max l = Some mx /\ In mx l /\ forall a, In a l -> a <= mx.
Proof.
  destruct l as [| b l]; [easy |]. intros _.
  exists (max_from b l). split; [reflexivity |]. split.
  - destruct (max_from_in b l) as [H | H]; [left; auto | right; assumption].
  - intros a [<- | Hin];
      [apply max_from_ge_best | apply max_from_ge_all; assumption].
Qed.

Lemma argmax_from_spec (l pre : list R) (bi : nat) (b : R) :
  (bi < length pre)%nat -> nth bi pre 0 = b ->
  (forall j, (j < length pre)%nat -> nth j pre 0 <= b) ->
  (forall j, (j < bi)%nat -> nth j pre 0 < b) ->
  let r := argmax_from bi b (length pre) l in
  (r < length (pre ++ l))%nat /\
  (forall j, (j < length (pre ++ l))%nat ->
             nth j (pre ++ l) 0 <= nth r (pre ++ l) 0) /\
  (forall j, (j < r)%nat -> nth j (pre ++ l) 0 < nth r (pre ++ l) 0).
Proof.
  revert pre bi b; induction l as [| a l IH]; intros pre bi b Hbi Hb Hall Hlt;
    simpl.
  - rewrite app_nil_r, Hb. auto.
  - replace (pre ++ a :: l) with ((pre ++ [a]) ++ l)
      by (rewrite <- app_assoc; reflexivity).
    replace (Datatypes.S (length pre)) with (length (pre ++ [a]))
      by (rewrite length_app; simpl; lia).
    destruct (Rltb b a) eqn:E;
      [apply Rltb_true in E | apply Rltb_false in E]; apply IH.
    + rewrite length_app; simpl; lia.
    + rewrite app_nth2, Nat.sub_diag by lia. reflexivity.
    + intros j Hj. rewrite length_app in Hj; simpl in Hj.
      destruct (Nat.eq_dec j (length pre)) as [-> | Hne].
      * rewrite app_nth2, Nat.sub_diag by lia. simpl; lra.
      * rewrite app_nth1 by lia. specialize (Hall j ltac:(lia)). lra.
    + intros j Hj. rewrite app_nth1 by lia.
      specialize (Hall j Hj). lra.
    + rewrite length_app; simpl; lia.
    + rewrite app_nth1 by lia. assumption.
    + intros j Hj. rewrite length_app in Hj; simpl in Hj.
      destruct (Nat.eq_dec j (length pre)) as [-> | Hne].
      * rewrite app_nth2, Nat.sub_diag by lia. simpl; lra.
      * rewrite app_nth1 by lia. apply Hall; lia.
    + intros j Hj. rewrite app_nth1 by lia. apply Hlt; assumption.
Qed.

(** [np.argmax] of a non-empty list is an index of the list whose
    element bounds all elements and is strictly above all earlier ones. *)
Lemma argmax_spec (l : list R) :
  l <> [] ->
  exists i, argmax l = Some i /\ (i < length l)%nat /\
            (forall j, (j < length l)%nat -> nth j l 0 <= nth i l 0) /\
            (forall j, (j < i)%nat -> nth j l 0 < nth i l 0).
Proof.
  destruct l as [| a l]; [easy |]. intros _.
  exists (argmax_from 0 a 1 l). split; [reflexivity |].
  apply (argmax_from_spec l [a] 0 a); simpl; try lia; try reflexivity.
  - intros j Hj. assert (j = 0)%nat as -> by lia. simpl; lra.
Qed.

(** Between its samples [np.interp] stays between the values of the
    samples. *)
Lemma interp_from_bounds (lo hi x : R) (xp fp : list R) (x0 f0 : R) :
  x0 <= x -> lo <= f0 <= hi -> Forall (fun f => lo <= f <= hi) fp ->
  lo <= interp_from x x0 f0 xp fp <= hi.
Proof.
  revert fp x0 f0; induction xp as [| x1 xp IH]; intros fp x0 f0 Hx Hf Hall;
    simpl; [assumption |].
  destruct fp as [| f1 fp]; [assumption |].
  inversion Hall as [| ? ? Hf1 Hall']; subst.
  cmp.
  - assumption.
  - assert (Hd : 0 < x1 - x0) by lra.
    set (tau := (x - x0) / (x1 - x0)).
    assert (Ht0 : 0 <= tau)
      by (apply Rmult_le_pos; [lra | left; apply Rinv_0_lt_compat; lra]).
    assert (Ht1 : tau <= 1).
    { unfold tau. apply (Rmult_le_reg_r (x1 - x0)); [assumption |].
      unfold Rdiv. rewrite Rmult_assoc, Rinv_l by lra. lra. }
    replace ((f1 - f0) / (x1 - x0) * (x - x0) + f0)
      with (f0 + tau * (f1 - f0)) by (unfold tau; field; lra).
    split; nra.
  - apply IH; [lra | assumption | assumption].
Qed.

Lemma interp_bounds (lo hi x : R) (xp fp : list R) :
  xp <> [] -> length fp = length xp ->
  Forall (fun f => lo <= f <= hi) fp ->
  exists y, interp x xp fp = Some y /\ lo <= y <= hi.
Proof.
  intros Hne Hlen Hall.
  destruct xp as [| x0 xp]; [easy |].
  destruct fp as [| f0 fp]; [discriminate |].
  simpl in Hlen. injection Hlen as Hlen.
  inversion Hall as [| ? ? Hf0 Hall']; subst.
  unfold interp. rewrite <- Hlen, Nat.eqb_refl.
  eexists; split; [reflexivity |].
  destruct (Rltb x x0) eqn:E;
    [assumption | apply Rltb_false in E; apply interp_from_bounds; assumption].
Qed.



Lemma interp_from_clamps (x : R) (xp fp : list R) (x0 f0 : R) :
  length fp = length xp -> Forall (fun xi => xi <= x) xp ->
  interp_from x x0 f0 xp fp = last (f0 :: fp) 0.
Proof.
  revert fp x0 f0; induction xp as [| x1 xp IH]; intros fp x0 f0 Hlen Hall.
  - destruct fp; [reflexivity | discriminate].
  - destruct fp as [| f1 fp]; [discriminate |].
    simpl in Hlen. injection Hlen as Hlen.
    inversion Hall as [| ? ? Hx1 Hall']; subst.
    cbn [interp_from]. rewrite (proj2 (Rltb_false x x1)) by assumption.
    rewrite IH by assumption. reflexivity.
Qed.

(** From the last sample point on [np.interp] returns the last sample. *)
Lemma interp_clamps (x : R) (xp fp : list R) :
  xp <> [] -> length fp = length xp -> Forall (fun xi => xi <= x) xp ->
  interp x xp fp = Some (last fp 0).
Proof.
  intros Hne Hlen Hall.
  destruct xp as [| x0 xp]; [easy |].
  destruct fp as [| f0 fp]; [discriminate |].
  pose proof Hlen as Hlen'. simpl in Hlen'. injection Hlen' as Hlen'.
  inversion Hall as [| ? ? Hx0 Hall']; subst.
  unfold interp. rewrite <- Hlen', Nat.eqb_refl.
  rewrite (proj2 (Rltb_false x x0)) by assumption.
  f_equal. apply interp_from_clamps; assumption.
Qed.



Lemma clock_ticks_below (d x : R) (n : nat) :
  0 <= d -> INR n * d - d <= x ->
  Forall (fun xi => xi <= x) (clock_ticks d n).
Proof.
  intros Hd Hx. apply Forall_forall. intros y Hy.
  apply in_map_iff in Hy as (i & <- & Hi). apply in_seq in Hi.
  assert (Hle : INR i <= INR n - 1).
  { assert (Datatypes.S i <= n)%nat as Hs by lia.
    apply le_INR in Hs. rewrite S_INR in Hs. lra. }
  assert (INR i * d <= (INR n - 1) * d)
    by (apply Rmult_le_compat_r; assumption).
  lra.
Qed.

(** ** The summary values of a finished run *)

(** The facts about a finished run of v1 that the post-processing
    relies on. *)
Lemma V1_run_facts (p : rocket) (fuel : nat) (s' : V1.state) :
  V1.simulate p fuel = Done s' ->
  V1_trace p s' /\ Forall nonneg (V1.height_list s') /\
  (1 <= length (V1.time_list s'))%nat.
Proof.
  intros H.
  destruct (V1_run_trace _ _ _ H) as (Htr & Hn).
  destruct (V1_run_done _ _ _ H) as (_ & _ & _ & _ & _ & _ & (_ & _ & Hall & _) & _).
  auto.
Qed.

Lemma nonempty_length (l : list R) : (1 <= length l)%nat -> l <> [].
Proof. destruct l; simpl; [lia | discriminate]. Qed.

Lemma interp_defined (x : R) (xp fp : list R) :
  xp <> [] -> length fp = length xp -> exists y, interp x xp fp = Some y.
Proof.
  intros Hne Hlen.
  destruct xp as [| x0 xp]; [easy |].
  destruct fp as [| f0 fp]; [discriminate |].
  simpl in Hlen. injection Hlen as Hlen.
  unfold interp. rewrite <- Hlen, Nat.eqb_refl. eauto.
Qed.

Lemma V1_analyse_spec (p : rocket) (s : V1.state) :
  V1_trace p s -> (1 <= length (V1.time_list s))%nat ->
  exists i mx bh bv,
    V1_analyse p s =
    Some (mkV1_report i (nth i (V1.height_list s) 0)
            (nth i (V1.time_list s) 0) mx bh bv) /\
    argmax (V1.height_list s) = Some i /\
    (i < length (V1.height_list s))%nat /\
    (forall j, (j < length (V1.height_list s))%nat ->
       nth j (V1.height_list s) 0 <= nth i (V1.height_list s) 0) /\
    (forall j, (j < i)%nat ->
       nth j (V1.height_list s) 0 < nth i (V1.height_list s) 0) /\
    np_max (V1.velocity_list s) = Some mx /\
    interp (burn_time p) (V1.time_list s) (V1.height_list s) = Some bh /\
    interp (burn_time p) (V1.time_list s) (V1.velocity_list s) = Some bv.
Proof.
  intros (Htl & Ht & Hh & Hv & Ha & Hh0 & Hv0) Hn.
  pose proof (nonempty_length _ Hn) as Hne.
  destruct (argmax_spec (V1.height_list s)) as (i & Hi & Hlt & Hmax & Hfirst);
    [apply nonempty_length; lia |].
  destruct (np_max_spec (V1.velocity_list s)) as (mx & Hmx & _);
    [apply nonempty_length; lia |].
  destruct (interp_defined (burn_time p) _ _ Hne Hh) as (bh & Hbh).
  destruct (interp_defined (burn_time p) _ _ Hne Hv) as (bv & Hbv).
  exists i, mx, bh, bv. unfold V1_analyse.
  rewrite Hi. cbn [obind].
  rewrite (nth_error_nth' _ 0 Hlt). cbn [obind].
  rewrite (nth_error_nth' (V1.time_list s) 0) by (rewrite <- Hh; assumption).
  cbn [obind]. rewrite Hmx. cbn [obind]. rewrite Hbh. cbn [obind].
  rewrite Hbv. cbn [obind]. auto 10.
Qed.

Lemma V2_analyse_spec (s : V2.state) :
  length (V2.height_list s) = length (V2.time_list s) ->
  (1 <= length (V2.time_list s))%nat ->
  exists i,
    V2_analyse s =
    Some (i, nth i (V2.height_list s) 0, nth i (V2.time_list s) 0) /\
    (i < length (V2.height_list s))%nat /\
    (forall j, (j < length (V2.height_list s))%nat ->
       nth j (V2.height_list s) 0 <= nth i (V2.height_list s) 0) /\
    (forall j, (j < i)%nat ->
       nth j (V2.height_list s) 0 < nth i (V2.height_list s) 0).
Proof.
  intros Hh Hn.
  destruct (argmax_spec (V2.height_list s)) as (i & Hi & Hlt & Hmax & Hfirst);
    [apply nonempty_length; lia |].
  exists i. unfold V2_analyse.
  rewrite Hi. cbn [obind].
  rewrite (nth_error_nth' _ 0 Hlt). cbn [obind].
  rewrite (nth_error_nth' (V2.time_list s) 0) by (rewrite <- Hh; assumption).
  cbn [obind]. auto.
Qed.

(** X13.  The post-processing of a finished run never fails: the lists
    are non-empty and of one length, so [np.argmax], the two indexings,
    [np.max] and both [np.interp] calls of v1, the apogee look-up of v2
    and the [np.max] of v3 all return a value. *)
Theorem post_processing_never_fails :
  (forall p fuel s', V1.simulate p fuel = Done s' ->
     exists rep, V1_analyse p s' = Some rep) /\
  (forall p q fuel s', V2.simulate p q fuel = Done s' ->
     exists rep, V2_analyse s' = Some rep) /\
  (forall p q r fuel s', V3.simulate p q r fuel = Done s' ->
     exists apogee, V3_analyse s' = Some apogee).
Proof.
  split; [| split].
  - intros p fuel s' H.
    destruct (V1_run_trace _ _ _ H) as (Htr & Hn).
    destruct (V1_analyse_spec p s' Htr Hn) as (i & mx & bh & bv & E & _).
    eauto.
  - intros p q fuel s' H.
    destruct (V2_run_trace _ _ _ _ H) as ((_ & _ & Hh & _) & Hn).
    destruct (V2_analyse_spec s' Hh Hn) as (i & E & _). eauto.
  - intros p q r fuel s' H.
    destruct (V3_run_trace _ _ _ _ _ H) as ((_ & _ & _ & Hy & _) & Hn).
    unfold V3_analyse.
    destruct (np_max_spec (V3.y_l s')) as (mx & E & _);
      [apply nonempty_length; lia | eauto].
Qed.



(** X15.  The values taken with [np.max]: the maximum velocity of v1 is
    one of the recorded velocities, not below any of them and not
    negative (it is a maximum of signed velocities, the first of which is
    0); the apogee of v3 is one of the recorded altitudes, not below any
    of them and not negative. *)
Theorem np_max_summaries :
  (forall p fuel s', V1.simulate p fuel = Done s' ->
     exists rep, V1_analyse p s' = Some rep /\
       In (max_velocity rep) (V1.velocity_list s') /\
       (forall v, In v (V1.velocity_list s') -> v <= max_velocity rep) /\
       0 <= max_velocity rep) /\
  (forall p q r fuel s', V3.simulate p q r fuel = Done s' ->
     exists apogee, V3_analyse s' = Some apogee /\
       In apogee (V3.y_l s') /\
       (forall y, In y (V3.y_l s') -> y <= apogee) /\
       0 <= apogee).
Proof.
  split.
  - intros p fuel s' H.
    destruct (V1_run_trace _ _ _ H) as (Htr & Hn).
    destruct (V1_analyse_spec p s' Htr Hn)
      as (i & mx & bh & bv & E & _ & _ & _ & _ & Hmx & _).
    destruct Htr as (_ & _ & _ & Hv & _ & _ & Hv0).
    rewrite hd_snoc_nonempty in Hv0 by lia.
    destruct (np_max_spec (V1.velocity_list s')) as (mx' & Hmx' & Hin & Hge);
      [apply nonempty_length; lia |].
    rewrite Hmx in Hmx'. inversion Hmx'; subst mx'.
    eexists; split; [exact E |]. simpl. repeat split; try assumption.
    rewrite <- Hv0. apply Hge.
    destruct (V1.velocity_list s'); [simpl in Hv; lia | left; reflexivity].
  - intros p q r fuel s' H.
    destruct (V3_run_trace _ _ _ _ _ H)
      as ((_ & _ & _ & Hy & _ & _ & _ & _ & _ & Hy0 & _) & Hn).
    rewrite hd_snoc_nonempty in Hy0 by lia.
    unfold V3_analyse.
    destruct (np_max_spec (V3.y_l s')) as (mx & Hmx & Hin & Hge);
      [apply nonempty_length; lia |].
    exists mx. repeat split; try assumption.
    rewrite <- Hy0. apply Hge.
    destruct (V3.y_l s'); [simpl in Hy; lia | left; reflexivity].
Qed.

Lemma list_lower_bound (l : list R) :
  exists lo, Forall (fun f => lo <= f) l.
Proof.
  induction l as [| a l (lo & IH)]; [exists 0; constructor |].
  exists (Rmin a lo). constructor; [apply Rmin_l |].
  apply Forall_forall. intros f Hf. rewrite Forall_forall in IH.
  pose proof (Rmin_r a lo). specialize (IH f Hf). lra.
Qed.

Lemma interp_upper (hi x : R) (xp fp : list R) (y : R) :
  xp <> [] -> length fp = length xp ->
  (forall f, In f fp -> f <= hi) ->
  interp x xp fp = Some y -> y <= hi.
Proof.
  intros Hne Hlen Hhi Hy.
  destruct (list_lower_bound fp) as (lo & Hlo).
  destruct (interp_bounds lo hi x xp fp Hne Hlen) as (y' & Hy' & Hb).
  - apply Forall_forall. intros f Hf. rewrite Forall_forall in Hlo. auto.
  - rewrite Hy in Hy'; inversion Hy'; subst y'. lra.
Qed.

(** X16.  With [dt > 0], so that the recorded times increase, the
    burnout values of v1, interpolated at [burn_time], stay within what
    was recorded: the burnout height is between 0 and the apogee height,
    the burnout velocity is not above the maximum velocity. *)
Theorem burnout_values_are_bounded (p : rocket) (fuel : nat)
  (s' : V1.state) :
  0 < dt p ->
  V1.simulate p fuel = Done s' ->
  exists rep, V1_analyse p s' = Some rep /\
    0 <= burnout_height rep <= apogee_height rep /\
    burnout_velocity rep <= max_velocity rep.
Proof.
  intros _ H.
  destruct (V1_run_facts _ _ _ H) as (Htr & Hall & Hn).
  destruct (V1_analyse_spec p s' Htr Hn)
    as (i & mx & bh & bv & E & _ & Hlt & Hmax & _ & Hmx & Hbh & Hbv).
  destruct Htr as (_ & _ & Hh & Hv & _).
  pose proof (nonempty_length _ Hn) as Hne.
  eexists; split; [exact E |]. simpl. split.
  - destruct (interp_bounds 0 (nth i (V1.height_list s') 0) (burn_time p)
                (V1.time_list s') (V1.height_list s') Hne Hh)
      as (y & Hy & Hb).
    + apply Forall_forall. intros f Hf.
      split; [rewrite Forall_forall in Hall; apply Hall; assumption |].
      apply (In_nth _ _ 0) in Hf as (j & Hj & <-). apply Hmax; assumption.
    + rewrite Hbh in Hy; inversion Hy; subst y. assumption.
  - destruct (np_max_spec (V1.velocity_list s')) as (mx' & Hmx' & _ & Hge);
      [apply nonempty_length; lia |].
    rewrite Hmx in Hmx'. inversion Hmx'; subst mx'.
    exact (interp_upper mx _ _ _ bv Hne Hv Hge Hbv).
Qed.


(** X18.  When the flight is over by burnout, the last recorded time
    [t - dt] being at or before [burn_time] ([dt > 0]), the burnout
    height and velocity reported by v1 are the last recorded samples:
    [np.interp] does not extrapolate. *)
Theorem burnout_after_the_last_sample (p : rocket) (fuel : nat)
  (s' : V1.state) :
  0 < dt p -> V1.t s' - dt p <= burn_time p ->
  V1.simulate p fuel = Done s' ->
  exists rep, V1_analyse p s' = Some rep /\
    burnout_height rep = last (V1.height_list s') 0 /\
    burnout_velocity rep = last (V1.velocity_list s') 0.
Proof.
  intros Hdt Hlast H.
  destruct (V1_run_trace _ _ _ H) as (Htr & Hn).
  destruct (V1_analyse_spec p s' Htr Hn)
    as (i & mx & bh & bv & E & _ & _ & _ & _ & _ & Hbh & Hbv).
  destruct Htr as (Htl & Ht & Hh & Hv & _).
  pose proof (nonempty_length _ Hn) as Hne.
  assert (Hall : Forall (fun xi => xi <= burn_time p) (V1.time_list s')).
  { rewrite Htl. apply clock_ticks_below; lra. }
  rewrite (interp_clamps _ _ _ Hne Hh Hall) in Hbh.
  rewrite (interp_clamps _ _ _ Hne Hv Hall) in Hbv.
  inversion Hbh; inversion Hbv; subst.
  eexists; split; [exact E |]. simpl. auto.
Qed.

(** ** The sample runs, against the further properties *)

Lemma dud_run : V1.simulate dud 1 = Done dud_final.
Proof.
  unfold V1.simulate, dud_final.
  rewrite divide_Done by (simpl; lra).
  unfold bind, V1.init.
  v1_iter 0 2 (-10) 1 (-10) (-10).
  apply while_loop_exit. unfold V1.cond; cond_at.
Qed.






Lemma no_landing_under_power_witness :
  valid_engine short_hop /\ 0 <= g short_hop /\ 0 < dt short_hop /\
  initial_mass short_hop * g short_hop < thrust short_hop /\
  V1.simulate short_hop 4 = Done short_hop_final /\
  last (V1.time_list short_hop_final) 0
  = V1.t short_hop_final - dt short_hop /\
  burn_time short_hop <= last (V1.time_list short_hop_final) 0.
Proof.
  assert (Hg : 0 <= g short_hop) by (simpl; lra).
  assert (Hdt : 0 < dt short_hop) by (simpl; lra).
  assert (Hth : initial_mass short_hop * g short_hop < thrust short_hop)
    by (simpl; lra).
  split; [exact short_hop_valid |].
  split; [exact Hg |]. split; [exact Hdt |]. split; [exact Hth |].
  split; [exact short_hop_run |].
  exact (no_landing_under_power short_hop 4 short_hop_final short_hop_valid
           Hg Hdt Hth short_hop_run).
Defined.

Lemma touchdown_within_one_step_witness :
  V1.simulate short_hop 4 = Done short_hop_final /\
  V1.v short_hop_final * dt short_hop <= V1.h short_hop_final < 0 /\
  (0 < dt short_hop -> V1.v short_hop_final < 0).
Proof.
  split; [exact short_hop_run |].
  exact (proj1 touchdown_within_one_step short_hop 4%nat short_hop_final
           short_hop_run).
Defined.

Lemma v2_without_drag_is_v1_witness :
  (rho no_drag = 0 \/ C_d no_drag = 0 \/ rocket_diameter no_drag = 0) /\
  same_outcome same_flight (V1.simulate short_hop 4)
    (V2.simulate short_hop no_drag 4).
Proof.
  assert (Hq : rho no_drag = 0 \/ C_d no_drag = 0 \/ rocket_diameter no_drag = 0)
    by (right; left; reflexivity).
  split; [exact Hq |].
  exact (v2_without_drag_is_v1 short_hop no_drag 4 Hq).
Defined.

Lemma v3_without_air_is_v1_witness :
  (rho vacuum = 0 \/ C_d vacuum = 0 \/ rocket_diameter vacuum = 0) /\
  initial_angle_deg upright = 0 /\ moment_of_inertia_I upright <> 0 /\
  same_outcome reduces (V1.simulate short_hop 4)
    (V3.simulate short_hop vacuum upright 4).
Proof.
  assert (Hq : rho vacuum = 0 \/ C_d vacuum = 0 \/ rocket_diameter vacuum = 0)
    by (left; reflexivity).
  assert (Ha : initial_angle_deg upright = 0) by reflexivity.
  assert (HI : moment_of_inertia_I upright <> 0) by (simpl; lra).
  repeat split; try assumption.
  exact (v3_without_air_is_v1 short_hop vacuum upright 4 Hq Ha HI).
Defined.

Lemma drag_slows_the_rocket_witness :
  0 <= rho unit_drag /\ 0 <= C_d unit_drag /\ 0 <= dt short_hop /\
  0 < snd (flight_profile short_hop 1 (V1.t short_hop_first)) /\
  exists s1' s2',
    V1.body short_hop 1 short_hop_first = Done s1' /\
    V2.body short_hop unit_drag 1
      (V2.mkState 1 10 10 2 [0] [0] [0] [10]) = Done s2' /\
    (0 <= V1.v short_hop_first -> V2.v s2' <= V1.v s1') /\
    (V1.v short_hop_first <= 0 -> V1.v s1' <= V2.v s2').
Proof.
  assert (Hr : 0 <= rho unit_drag) by (simpl; lra).
  assert (Hc : 0 <= C_d unit_drag) by (simpl; lra).
  assert (Hdt : 0 <= dt short_hop) by (simpl; lra).
  assert (Hm : 0 < snd (flight_profile short_hop 1 (V1.t short_hop_first))).
  { rewrite profile_coasting by (simpl; lra).
    unfold burnout_mass; simpl; lra. }
  assert (Hbo : 0 < burnout_mass short_hop)
    by (unfold burnout_mass; simpl; lra).
  assert (Hflow : 1 * burn_time short_hop = propellant_mass short_hop)
    by (simpl; lra).
  destruct (V1_body_defined short_hop 1 short_hop_first Hbo Rle_0_1 Hflow)
    as (s1' & H1 & _).
  destruct (V2_body_defined short_hop unit_drag 1
              (V2.mkState 1 10 10 2 [0] [0] [0] [10]) Hbo Rle_0_1 Hflow)
    as (s2' & H2 & _).
  repeat split; try assumption.
  exists s1', s2'. split; [exact H1 |]. split; [exact H2 |].
  exact (drag_slows_the_rocket short_hop unit_drag 1 short_hop_first s1'
           (V2.mkState 1 10 10 2 [0] [0] [0] [10]) s2'
           Hr Hc Hdt Hm eq_refl eq_refl H1 H2).
Defined.

Lemma torque_is_a_cross_product_witness :
  V3.torque unit_drag upright 1 0 0 = 0.
Proof.
  exact (proj1 (proj2 (torque_is_a_cross_product unit_drag upright 1 0 0))
           eq_refl eq_refl).
Defined.

Lemma post_processing_never_fails_witness :
  V1.simulate short_hop 4 = Done short_hop_final /\
  exists rep, V1_analyse short_hop short_hop_final = Some rep.
Proof.
  split; [exact short_hop_run |].
  exact (proj1 post_processing_never_fails short_hop 4%nat short_hop_final
           short_hop_run).
Defined.


Lemma np_max_summaries_witness :
  V1.simulate short_hop 4 = Done short_hop_final /\
  exists rep, V1_analyse short_hop short_hop_final = Some rep /\
    In (max_velocity rep) (V1.velocity_list short_hop_final) /\
    (forall v, In v (V1.velocity_list short_hop_final) ->
       v <= max_velocity rep) /\
    0 <= max_velocity rep.
Proof.
  split; [exact short_hop_run |].
  exact (proj1 np_max_summaries short_hop 4%nat short_hop_final
           short_hop_run).
Defined.

Lemma burnout_values_are_bounded_witness :
  0 < dt short_hop /\
  V1.simulate short_hop 4 = Done short_hop_final /\
  exists rep, V1_analyse short_hop short_hop_final = Some rep /\
    0 <= burnout_height rep <= apogee_height rep /\
    burnout_velocity rep <= max_velocity rep.
Proof.
  assert (Hdt : 0 < dt short_hop) by (simpl; lra).
  split; [exact Hdt |]. split; [exact short_hop_run |].
  exact (burnout_values_are_bounded short_hop 4 short_hop_final Hdt
           short_hop_run).
Defined.


Lemma burnout_after_the_last_sample_witness :
  0 < dt dud /\ V1.t dud_final - dt dud <= burn_time dud /\
  V1.simulate dud 1 = Done dud_final /\
  exists rep, V1_analyse dud dud_final = Some rep /\
    burnout_height rep = last (V1.height_list dud_final) 0 /\
    burnout_velocity rep = last (V1.velocity_list dud_final) 0.
Proof.
  assert (Hdt : 0 < dt dud) by (simpl; lra).
  assert (Hl : V1.t dud_final - dt dud <= burn_time dud) by (simpl; lra).
  split; [exact Hdt |]. split; [exact Hl |]. split; [exact dud_run |].
  exact (burnout_after_the_last_sample dud 1 dud_final Hdt Hl dud_run).
Defined.
